(** * ArUco detection benchmark and launch description

    A shallow embedding of [src/aruco_py/scripts/test_optimizations.py]
    (the benchmark script) and of [launch/aruco_optimized.launch.py] (the
    launch description), with the properties the specification states
    about them.

    Modelling decisions.
    - numpy images live in a store ([heap]) and are handled through
      references, so that copies and aliases can be told apart;
    - the script runs in a state-and-exception monad [M] over [World]
      (store, wall clock, camera device 0, and a trace of what the run
      did: lines printed, clock readings, calls of [detect_markers]);
    - Python floats are rationals ([Q]); integer identifiers are [Z]. The
      functions named after the script compute in exact arithmetic; what
      they do to a value is right up to the rounding of doubles, what they
      decide (guards, branches, exceptions on a zero) is not affected.
      [test_configuration_float] is [test_configuration] with the rounding
      of every float operation and clock reading made explicit;
    - wall time passes in calls of [detect_markers] only: the [k]-th call
      of a run takes [duration_ms k] milliseconds;
    - the vision library (OpenCV) is a parameter: its functions are
      section variables, pure functions of the contents of their
      arguments that return freshly allocated arrays. *)

From Stdlib Require Import QArith Ascii String.
From Stdlib Require Floats.
From stdpp Require Import base list gmap strings sets.

Close Scope Q_scope.
#[local] Set Warnings "-clear-no-such-hyp,-register-all".
Open Scope string_scope.
Open Scope list_scope.
Open Scope nat_scope.

(** ** Python-level plumbing *)

Inductive exn :=
| KeyError (key : string)
| IndexError
| ZeroDivisionError
| UnboundLocalError (name : string)
| InvalidReference.

Inductive result (A : Type) :=
| Ok (a : A)
| Raise (e : exn).
Arguments Ok {A} a.
Arguments Raise {A} e.

#[export] Instance result_ret : MRet result := λ A a, Ok a.
#[export] Instance result_bind : MBind result := λ A B f r,
  match r with
  | Ok a => f a
  | Raise e => Raise e
  end.

(** A numpy array of unsigned bytes: its shape and its flattened contents. *)
Record ndarray := mk_ndarray { shape : list Z; data : list Z }.
Definition Image := ndarray.

(** The corners of one marker: the library's 1x4x2 array of points. *)
Definition Corners := list (Q * Q).

(** A value interpolated into an f-string. *)
Inductive pyval :=
| VStr (s : string)
| VInt (z : Z)
| VFloat (q : Q)
| VBool (b : bool)
| VShape (dims : list Z).

(** One call of [print]: the text of the (f-)string literal as it stands in
    the source, the values of its replacement fields in order, and the
    [end] argument when one is given. *)
Record printed := mk_printed {
  template : string;
  fields : list pyval;
  line_end : option string
}.

Inductive Event :=
| EvPrint (p : printed)
| EvTime (t : Q)
| EvDetect (gray : Image).

Definition loc := nat.

Record World := mk_World {
  heap : list Image;
  clock : Q;                  (* wall clock, in seconds *)
  trace : list Event;
  cam_opened : bool;          (* does device 0 open? *)
  cam_frame : option Image;   (* what a read of device 0 delivers, if anything *)
  cam_released : bool
}.

Definition set_heap (h : list Image) (w : World) : World :=
  mk_World h (clock w) (trace w) (cam_opened w) (cam_frame w) (cam_released w).
Definition set_clock (t : Q) (w : World) : World :=
  mk_World (heap w) t (trace w) (cam_opened w) (cam_frame w) (cam_released w).
Definition set_trace (tr : list Event) (w : World) : World :=
  mk_World (heap w) (clock w) tr (cam_opened w) (cam_frame w) (cam_released w).
Definition set_cam_released (b : bool) (w : World) : World :=
  mk_World (heap w) (clock w) (trace w) (cam_opened w) (cam_frame w) b.

Definition M (A : Type) : Type := World → World * result A.

#[export] Instance M_ret : MRet M := λ A a w, (w, Ok a).
#[export] Instance M_bind : MBind M := λ A B f m w,
  match m w with
  | (w', Ok a) => f a w'
  | (w', Raise e) => (w', Raise e)
  end.

Definition raise {A} (e : exn) : M A := λ w, (w, Raise e).
Definition lift {A} (r : result A) : M A := λ w, (w, r).

(** Dereference an array; a Python name always refers to a live object, so
    [InvalidReference] only arises from an ill-formed initial store. *)
Definition load (l : loc) : M Image := λ w,
  match heap w !! l with
  | Some img => (w, Ok img)
  | None => (w, Raise InvalidReference)
  end.

(** A new array object. *)
Definition alloc (img : Image) : M loc := λ w,
  (set_heap (heap w ++ [img]) w, Ok (length (heap w))).

Definition emit (e : Event) : M unit := λ w,
  (set_trace (trace w ++ [e]) w, Ok tt).

Definition print (s : string) : M unit :=
  emit (EvPrint (mk_printed s [] None)).
Definition printf (s : string) (vs : list pyval) : M unit :=
  emit (EvPrint (mk_printed s vs None)).

(** [for _ in range(n): body], threading the loop's variables. *)
Fixpoint for_range {A} (n : nat) (body : A → M A) (a : A) : M A :=
  match n with
  | O => mret a
  | S n' => a' ← body a; for_range n' body a'
  end.

(** [for x in xs: body]. *)
Fixpoint for_each {A B} (xs : list B) (body : B → A → M A) (a : A) : M A :=
  match xs with
  | [] => mret a
  | x :: xs' => a' ← body x a; for_each xs' body a'
  end.

(** ** Configuration presets *)

Record Config := mk_Config {
  use_clahe : bool;
  use_bilateral : bool;
  use_multi_threshold : bool;
  adaptive_thresh_constant : Z;
  corner_refinement_max_iterations : Z
}.

(** The global [configs] dictionary, in insertion order. *)
Definition configs : list (string * Config) :=
  [ ("original",  mk_Config false false false 7%Z 30%Z);
    ("optimized", mk_Config true false true 5%Z 60%Z);
    ("maximum",   mk_Config true true true 5%Z 80%Z) ].

Fixpoint dict_get {V} (d : list (string * V)) (k : string) : result V :=
  match d with
  | [] => Raise (KeyError k)
  | (k', v) :: d' => if String.eqb k' k then Ok v else dict_get d' k
  end.

(** [cfg.items()]. *)
Definition config_items (cfg : Config) : list (string * pyval) :=
  [ ("use_clahe", VBool (use_clahe cfg));
    ("use_bilateral", VBool (use_bilateral cfg));
    ("use_multi_threshold", VBool (use_multi_threshold cfg));
    ("adaptive_thresh_constant", VInt (adaptive_thresh_constant cfg));
    ("corner_refinement_max_iterations",
       VInt (corner_refinement_max_iterations cfg)) ].

(** ** The detector's parameter object *)

Inductive CornerRefineMethod :=
| CORNER_REFINE_NONE
| CORNER_REFINE_SUBPIX
| CORNER_REFINE_CONTOUR
| CORNER_REFINE_APRILTAG.

(** The fields of [cv2.aruco.DetectorParameters] that the script assigns. *)
Record DetectorParameters := mk_DetectorParameters {
  adaptiveThreshConstant : Q;
  cornerRefinementMaxIterations : Z;
  cornerRefinementMethod : CornerRefineMethod;
  minMarkerPerimeterRate : Q;
  maxMarkerPerimeterRate : Q;
  polygonalApproxAccuracyRate : Q;
  minCornerDistanceRate : Q;
  cornerRefinementWinSize : Z;
  cornerRefinementMinAccuracy : Q;
  errorCorrectionRate : Q;
  detectInvertedMarker : bool
}.

(** Attribute assignment [parameters.field = v]. *)
Definition set_adaptiveThreshConstant (v : Q) (p : DetectorParameters)
    : DetectorParameters :=
  mk_DetectorParameters
    v (cornerRefinementMaxIterations p) (cornerRefinementMethod p)
    (minMarkerPerimeterRate p) (maxMarkerPerimeterRate p)
    (polygonalApproxAccuracyRate p) (minCornerDistanceRate p)
    (cornerRefinementWinSize p) (cornerRefinementMinAccuracy p)
    (errorCorrectionRate p) (detectInvertedMarker p).
Definition set_cornerRefinementMaxIterations (v : Z) (p : DetectorParameters)
    : DetectorParameters :=
  mk_DetectorParameters
    (adaptiveThreshConstant p) v (cornerRefinementMethod p)
    (minMarkerPerimeterRate p) (maxMarkerPerimeterRate p)
    (polygonalApproxAccuracyRate p) (minCornerDistanceRate p)
    (cornerRefinementWinSize p) (cornerRefinementMinAccuracy p)
    (errorCorrectionRate p) (detectInvertedMarker p).
Definition set_cornerRefinementMethod (v : CornerRefineMethod) (p : DetectorParameters)
    : DetectorParameters :=
  mk_DetectorParameters
    (adaptiveThreshConstant p) (cornerRefinementMaxIterations p) v
    (minMarkerPerimeterRate p) (maxMarkerPerimeterRate p)
    (polygonalApproxAccuracyRate p) (minCornerDistanceRate p)
    (cornerRefinementWinSize p) (cornerRefinementMinAccuracy p)
    (errorCorrectionRate p) (detectInvertedMarker p).
Definition set_minMarkerPerimeterRate (v : Q) (p : DetectorParameters)
    : DetectorParameters :=
  mk_DetectorParameters
    (adaptiveThreshConstant p) (cornerRefinementMaxIterations p)
    (cornerRefinementMethod p) v (maxMarkerPerimeterRate p)
    (polygonalApproxAccuracyRate p) (minCornerDistanceRate p)
    (cornerRefinementWinSize p) (cornerRefinementMinAccuracy p)
    (errorCorrectionRate p) (detectInvertedMarker p).
Definition set_maxMarkerPerimeterRate (v : Q) (p : DetectorParameters)
    : DetectorParameters :=
  mk_DetectorParameters
    (adaptiveThreshConstant p) (cornerRefinementMaxIterations p)
    (cornerRefinementMethod p) (minMarkerPerimeterRate p) v
    (polygonalApproxAccuracyRate p) (minCornerDistanceRate p)
    (cornerRefinementWinSize p) (cornerRefinementMinAccuracy p)
    (errorCorrectionRate p) (detectInvertedMarker p).
Definition set_polygonalApproxAccuracyRate (v : Q) (p : DetectorParameters)
    : DetectorParameters :=
  mk_DetectorParameters
    (adaptiveThreshConstant p) (cornerRefinementMaxIterations p)
    (cornerRefinementMethod p) (minMarkerPerimeterRate p)
    (maxMarkerPerimeterRate p) v (minCornerDistanceRate p)
    (cornerRefinementWinSize p) (cornerRefinementMinAccuracy p)
    (errorCorrectionRate p) (detectInvertedMarker p).
Definition set_minCornerDistanceRate (v : Q) (p : DetectorParameters)
    : DetectorParameters :=
  mk_DetectorParameters
    (adaptiveThreshConstant p) (cornerRefinementMaxIterations p)
    (cornerRefinementMethod p) (minMarkerPerimeterRate p)
    (maxMarkerPerimeterRate p) (polygonalApproxAccuracyRate p) v
    (cornerRefinementWinSize p) (cornerRefinementMinAccuracy p)
    (errorCorrectionRate p) (detectInvertedMarker p).
Definition set_cornerRefinementWinSize (v : Z) (p : DetectorParameters)
    : DetectorParameters :=
  mk_DetectorParameters
    (adaptiveThreshConstant p) (cornerRefinementMaxIterations p)
    (cornerRefinementMethod p) (minMarkerPerimeterRate p)
    (maxMarkerPerimeterRate p) (polygonalApproxAccuracyRate p)
    (minCornerDistanceRate p) v (cornerRefinementMinAccuracy p)
    (errorCorrectionRate p) (detectInvertedMarker p).
Definition set_cornerRefinementMinAccuracy (v : Q) (p : DetectorParameters)
    : DetectorParameters :=
  mk_DetectorParameters
    (adaptiveThreshConstant p) (cornerRefinementMaxIterations p)
    (cornerRefinementMethod p) (minMarkerPerimeterRate p)
    (maxMarkerPerimeterRate p) (polygonalApproxAccuracyRate p)
    (minCornerDistanceRate p) (cornerRefinementWinSize p) v
    (errorCorrectionRate p) (detectInvertedMarker p).
Definition set_errorCorrectionRate (v : Q) (p : DetectorParameters)
    : DetectorParameters :=
  mk_DetectorParameters
    (adaptiveThreshConstant p) (cornerRefinementMaxIterations p)
    (cornerRefinementMethod p) (minMarkerPerimeterRate p)
    (maxMarkerPerimeterRate p) (polygonalApproxAccuracyRate p)
    (minCornerDistanceRate p) (cornerRefinementWinSize p)
    (cornerRefinementMinAccuracy p) v (detectInvertedMarker p).
Definition set_detectInvertedMarker (v : bool) (p : DetectorParameters)
    : DetectorParameters :=
  mk_DetectorParameters
    (adaptiveThreshConstant p) (cornerRefinementMaxIterations p)
    (cornerRefinementMethod p) (minMarkerPerimeterRate p)
    (maxMarkerPerimeterRate p) (polygonalApproxAccuracyRate p)
    (minCornerDistanceRate p) (cornerRefinementWinSize p)
    (cornerRefinementMinAccuracy p) (errorCorrectionRate p) v.

Record CLAHE := mk_CLAHE { clipLimit : Q; tileGridSize : Z * Z }.

(** Library constants (values of the OpenCV headers). *)
Definition DICT_7X7_50 : Z := 12%Z.
Definition COLOR_BGR2GRAY : Z := 6%Z.
Definition THRESH_BINARY : Z := 0%Z.
Definition THRESH_OTSU : Z := 8%Z.

(** The triple returned by [cv2.aruco.detectMarkers]: corners, identifiers
    (an Nx1 array, or [None]), rejected candidates. *)
Definition Detection : Type := list Corners * option (list Z) * list Corners.

(** The accumulators of the multi-threshold merge. *)
Record merge_state := mk_merge_state {
  all_corners : list Corners;
  all_ids : list Z;
  seen_ids : gset Z
}.

(** The loop [for i, marker_id in enumerate(ids.flatten())], entered at
    index [i]; [corners[i]] past the end of [corners] is an [IndexError]. *)
Fixpoint merge_loop (corners : list Corners) (i : nat) (ids : list Z)
    (st : merge_state) : result merge_state :=
  match ids with
  | [] => Ok st
  | marker_id :: rest =>
      if decide (marker_id ∈ seen_ids st) then merge_loop corners (S i) rest st
      else
        match corners !! i with
        | Some c =>
            merge_loop corners (S i) rest
              (mk_merge_state (all_corners st ++ [c])
                              (all_ids st ++ [marker_id])
                              ({[ marker_id ]} ∪ seen_ids st))
        | None => Raise IndexError
        end
  end.

(** [if ids is not None: for ...]. *)
Definition merge_pass (corners : list Corners) (ids : option (list Z))
    (st : merge_state) : result merge_state :=
  match ids with
  | Some l => merge_loop corners 0 l st
  | None => Ok st
  end.

(** The result record of [test_configuration]. *)
Record BenchResult := mk_BenchResult {
  config : string;
  num_markers : Z;
  time_ms : Q;
  fps : Q
}.

(** Python's [/] on floats. *)
Definition truediv (a b : Q) : result Q :=
  if Qeq_bool b 0%Q then Raise ZeroDivisionError else Ok (a / b)%Q.

(** *** Doubles

    A Python float is an IEEE 754 binary64 number, and an operation on
    floats returns the exact result rounded. A finite double is a
    rational, so the rounding is a function on [Q]. *)

(** The integer nearest to [n / d], ties to even, for [0 <= n], [0 < d]. *)
Definition nearest_even (n d : Z) : Z :=
  let q := (n / d)%Z in
  match (2 * (n mod d) ?= d)%Z with
  | Lt => q
  | Gt => (q + 1)%Z
  | Eq => if Z.even q then q else (q + 1)%Z
  end.

(** Numerator and denominator of [(n / d) / 2 ^ e]. *)
Definition scaled (n d e : Z) : Z * Z :=
  if (0 <=? e)%Z then (n, (d * 2 ^ e)%Z) else ((n * 2 ^ (- e))%Z, d).

(** Rounding to binary64: to nearest, ties to even, 53 bits of precision,
    gradual underflow below [2 ^ -1022]. The exponent is not bounded
    above: beyond the largest double (about [1.8e308]) a double is an
    infinity, which is no rational, and the function is not meant. *)
Definition binary64 (x : Q) : Q :=
  let n := Z.abs (Qnum x) in
  let d := Z.pos (Qden x) in
  if (n =? 0)%Z then 0%Q else
  let k0 := (Z.log2 n - Z.log2 d)%Z in
  let '(a, b) := scaled n d k0 in
  (* [2 ^ k <= n / d < 2 ^ (k + 1)] *)
  let k := if (b <=? a)%Z then k0 else (k0 - 1)%Z in
  let e := Z.max (k - 52) (-1074) in
  let '(a, b) := scaled n d e in
  let m := (Z.sgn (Qnum x) * nearest_even a b)%Z in
  if (0 <=? e)%Z then Qmake (m * 2 ^ e) 1 else Qmake m (Z.to_pos (2 ^ (- e))).

(** The rational a hardware double stands for; [None] for an infinity
    or a NaN. *)
Definition Q_of_float (f : PrimFloat.float) : option Q :=
  match FloatOps.Prim2SF f with
  | SpecFloat.S754_zero _ => Some 0%Q
  | SpecFloat.S754_finite s m e =>
      let z := if s then Z.neg m else Z.pos m in
      Some (if (0 <=? e)%Z then Qmake (z * 2 ^ e) 1
            else Qmake z (Z.to_pos (2 ^ (- e))))
  | _ => None
  end.

(** The hardware double nearest to an integer [0 <= n < 2 ^ 63]. *)
Definition float_of_Z (n : Z) : PrimFloat.float :=
  PrimFloat.of_uint63 (Uint63.of_Z n).

(** [a - b], [a * b] and [a / b] on floats, under the rounding [rnd]. *)
Definition float_sub (rnd : Q → Q) (a b : Q) : Q := rnd (a - b)%Q.
Definition float_mul (rnd : Q → Q) (a b : Q) : Q := rnd (a * b)%Q.
Definition float_truediv (rnd : Q → Q) (a b : Q) : result Q :=
  if Qeq_bool b 0%Q then Raise ZeroDivisionError else Ok (rnd (a / b)%Q).

(** [a > b] on floats. *)
Definition Qgt_bool (a b : Q) : bool := negb (Qle_bool a b).

(** [str.upper] on ASCII text. *)
Definition upper_ascii (c : ascii) : ascii :=
  let n := nat_of_ascii c in
  if (97 <=? n)%nat && (n <=? 122)%nat then ascii_of_nat (n - 32) else c.
Fixpoint upper (s : string) : string :=
  match s with
  | EmptyString => EmptyString
  | String c s' => String (upper_ascii c) (upper s')
  end.

(** [s * n]. *)
Fixpoint str_repeat (s : string) (n : nat) : string :=
  match n with
  | O => ""
  | S n' => s +:+ str_repeat s n'
  end.

(** ** The launch description

    [generate_launch_description] builds a value: a list of actions whose
    arguments are substitutions, resolved by the launch framework when the
    description is launched. The framework's part is [launch] below: it
    runs the actions in order, a declared argument taking its default
    unless the invocation gave it a value, and a node starting with its
    substitutions performed in the launch configurations of that moment. *)

Inductive Substitution :=
| TextSubstitution (text : string)
| LaunchConfiguration (variable_name : string)
| FindPackageShare (package : string)
| PathJoinSubstitution (substitutions : list Substitution).

Record Node := mk_Node {
  node_package : string;
  node_executable : string;
  node_name : string;
  node_parameters : list Substitution;
  node_output : string
}.

Inductive Action :=
| DeclareLaunchArgument (name default_value description : string)
| StartNode (node : Node).

Definition LaunchDescription := list Action.

Definition generate_launch_description : LaunchDescription :=
  (* Declare arguments *)
  let camera_config_arg :=
    DeclareLaunchArgument "camera_config" "camera_c920.yaml"
      "Camera config file (camera_c920.yaml, camera_c505.yaml, or camera_720p.yaml)" in
  let device_arg :=
    DeclareLaunchArgument "device" "/dev/video0" "Camera device path" in
  (* Get config file path *)
  let config_file :=
    PathJoinSubstitution
      [FindPackageShare "aruco_py";
       TextSubstitution "config";
       LaunchConfiguration "camera_config"] in
  (* Camera node *)
  let camera_node :=
    mk_Node "v4l2_camera" "v4l2_camera_node" "camera" [config_file] "screen" in
  (* ArUco detection node *)
  let aruco_node :=
    mk_Node "aruco_py" "aruco_node" "aruco_node" [] "screen" in
  [camera_config_arg; device_arg; StartNode camera_node; StartNode aruco_node].

(** [os.path.join] on POSIX paths. *)
Definition starts_with_slash (s : string) : bool :=
  match s with
  | String c _ => Ascii.eqb c "/"%char
  | EmptyString => false
  end.

Fixpoint ends_with_slash (s : string) : bool :=
  match s with
  | EmptyString => false
  | String c EmptyString => Ascii.eqb c "/"%char
  | String _ s' => ends_with_slash s'
  end.

Definition path_join2 (path b : string) : string :=
  if starts_with_slash b then b
  else if String.eqb path "" || ends_with_slash path then path +:+ b
  else path +:+ "/" +:+ b.

Definition path_join (parts : list string) : string :=
  match parts with
  | [] => ""
  | a :: p => fold_left path_join2 p a
  end.

(** A node as started: its parameters are the performed substitutions. *)
Record Process := mk_Process {
  proc_package : string;
  proc_executable : string;
  proc_name : string;
  proc_parameters : list string;
  proc_output : string
}.

Section Launch.

(** The share directory of an installed package, if it is installed. *)
Variable share_directory : string → option string.

Fixpoint perform (configurations : gmap string string) (s : Substitution)
    : option string :=
  match s with
  | TextSubstitution text => Some text
  | LaunchConfiguration variable_name => configurations !! variable_name
  | FindPackageShare package => share_directory package
  | PathJoinSubstitution substitutions =>
      path_join <$>
        (fix perform_all (l : list Substitution) : option (list string) :=
           match l with
           | [] => Some []
           | x :: l' =>
               match perform configurations x, perform_all l' with
               | Some a, Some rest => Some (a :: rest)
               | _, _ => None
               end
           end) substitutions
  end.

Fixpoint perform_list (configurations : gmap string string)
    (l : list Substitution) : option (list string) :=
  match l with
  | [] => Some []
  | x :: l' =>
      match perform configurations x, perform_list configurations l' with
      | Some a, Some rest => Some (a :: rest)
      | _, _ => None
      end
  end.

(** Launching: the launch configurations start as the arguments given
    on the command line; the result is the list of processes started,
    or [None] when a substitution cannot be performed. *)
Fixpoint launch (configurations : gmap string string)
    (description : LaunchDescription) : option (list Process) :=
  match description with
  | [] => Some []
  | DeclareLaunchArgument name default_value _ :: rest =>
      match configurations !! name with
      | Some _ => launch configurations rest
      | None => launch (<[name := default_value]> configurations) rest
      end
  | StartNode node :: rest =>
      match perform_list configurations (node_parameters node),
            launch configurations rest with
      | Some ps, Some started =>
          Some (mk_Process (node_package node) (node_executable node)
                  (node_name node) ps (node_output node) :: started)
      | _, _ => None
      end
  end.

(** The launch configurations a substitution reads. *)
Fixpoint referenced (s : Substitution) : list string :=
  match s with
  | TextSubstitution _ => []
  | LaunchConfiguration variable_name => [variable_name]
  | FindPackageShare _ => []
  | PathJoinSubstitution substitutions =>
      (fix referenced_all (l : list Substitution) : list string :=
         match l with
         | [] => []
         | x :: l' => referenced x ++ referenced_all l'
         end) substitutions
  end.

Definition node_references (a : Action) : list string :=
  match a with
  | DeclareLaunchArgument _ _ _ => []
  | StartNode node => concat (referenced <$> node_parameters node)
  end.

End Launch.

(** ** A small vision library

    Concrete stand-ins for the library functions, on which the model runs:
    an image "shows" markers 7 and 3 to the plain detector and, once
    binarised by the Otsu threshold, markers 7 (at other corners) and 9;
    a black image shows nothing. *)

Module Sample.

Definition getPredefinedDictionary (name : Z) : Z := name.

(** The defaults of OpenCV 4 for the fields of interest. *)
Definition DetectorParameters_create : DetectorParameters :=
  mk_DetectorParameters 7%Q 30%Z CORNER_REFINE_NONE 0.03%Q 4.0%Q 0.03%Q
    0.05%Q 5%Z 0.1%Q 0.6%Q false.

Definition cvtColor (src : Image) (code : Z) : Image :=
  mk_ndarray (take 2 (shape src)) (data src).

Definition CLAHE_apply (c : CLAHE) (src : Image) : Image :=
  mk_ndarray (shape src) ((λ x, Z.min 254 (x + 1)) <$> data src).

Definition bilateralFilter (src : Image) (d : Z) (sigmaColor sigmaSpace : Q)
    : Image :=
  mk_ndarray (shape src) ((λ x, Z.min 254 (x + 2)) <$> data src).

Definition threshold (src : Image) (thresh maxval : Q) (type : Z)
    : Q * Image :=
  (127%Q, mk_ndarray (shape src) ((λ _, 255%Z) <$> data src)).

Definition c1 : Corners := [(0, 0); (1, 0); (1, 1); (0, 1)]%Q.
Definition c2 : Corners := [(2, 0); (3, 0); (3, 1); (2, 1)]%Q.
Definition c3 : Corners := [(5, 5); (6, 5); (6, 6); (5, 6)]%Q.
Definition c4 : Corners := [(8, 8); (9, 8); (9, 9); (8, 9)]%Q.

Definition detectMarkers (image : Image) (dictionary : Z)
    (parameters : DetectorParameters) : Detection :=
  match data image with
  | [] => ([], None, [])
  | x :: _ =>
      if (x =? 255)%Z then ([c3; c4], Some [7; 9]%Z, [])
      else if (x =? 0)%Z then ([], None, [])
      else ([c1; c2], Some [7; 3]%Z, [])
  end.

Definition randint (low high : Z) (size : list Z) : Image :=
  mk_ndarray size [17; 200; 3; 99]%Z.

(** Every call takes 5 ms; or no measurable time at all. *)
Definition steady (k : nat) : Q := 5%Q.
Definition instant (k : nat) : Q := 0%Q.
(** Every call takes 7.8125 ms, that is [2 ^ -7] s. *)
Definition dyadic (k : nat) : Q := (125 # 16)%Q.

Definition frame : Image := mk_ndarray [2; 2; 1]%Z [10; 20; 30; 40]%Z.
Definition black : Image := mk_ndarray [2; 2; 1]%Z [0; 0; 0; 0]%Z.

(** Worlds whose store holds one image, at location 0. *)
Definition world : World :=
  mk_World [frame] 100%Q [] true (Some frame) false.
Definition dark_world : World :=
  mk_World [black] 100%Q [] true (Some black) false.
Definition no_camera : World :=
  mk_World [] 100%Q [] false None false.

Definition maximum : Config := mk_Config true true true 5%Z 80%Z.
Definition original : Config := mk_Config false false false 7%Z 30%Z.

Definition share_directory (package : string) : option string :=
  if String.eqb package "aruco_py" then Some "/opt/ws/share/aruco_py"
  else None.

End Sample.

Section Benchmark.

#[local] Set Default Proof Using "Type".

(** Drops from a proof the library functions its statement does not
    mention. *)
Ltac forget_unused := repeat match goal with x : _ |- _ => clear x end.

(** *** The vision library and the environment *)
Context {Dictionary : Type}.
Variable getPredefinedDictionary : Z → Dictionary.
Variable DetectorParameters_create : DetectorParameters.
Variable cvtColor : Image → Z → Image.
Variable CLAHE_apply : CLAHE → Image → Image.
Variable bilateralFilter : Image → Z → Q → Q → Image.
Variable threshold : Image → Q → Q → Z → Q * Image.
Variable detectMarkers : Image → Dictionary → DetectorParameters → Detection.
(** [np.random.randint(low, high, size, dtype=np.uint8)] as drawn in this run. *)
Variable randint : Z → Z → list Z → Image.
(** Wall time, in milliseconds, taken by the [k]-th call of
    [detect_markers] of the run (counted from 0). *)
Variable duration_ms : nat → Q.

(** Library calls on array objects: read the argument, allocate the result. *)
Definition ndarray_copy (a : loc) : M loc :=
  img ← load a; alloc img.
Definition cv2_cvtColor (src : loc) (code : Z) : M loc :=
  img ← load src; alloc (cvtColor img code).
Definition cv2_createCLAHE (clip : Q) (tile : Z * Z) : CLAHE :=
  mk_CLAHE clip tile.
Definition clahe_apply (c : CLAHE) (src : loc) : M loc :=
  img ← load src; alloc (CLAHE_apply c img).
Definition cv2_bilateralFilter (src : loc) (d : Z) (sigmaColor sigmaSpace : Q)
    : M loc :=
  img ← load src; alloc (bilateralFilter img d sigmaColor sigmaSpace).
Definition cv2_threshold (src : loc) (thresh maxval : Q) (type : Z)
    : M (Q * loc) :=
  img ← load src;
  let '(t, dst) := threshold img thresh maxval type in
  l ← alloc dst; mret (t, l).
Definition cv2_aruco_detectMarkers (image : loc) (dictionary : Dictionary)
    (parameters : DetectorParameters) : M Detection :=
  img ← load image; mret (detectMarkers img dictionary parameters).

(** *** [setup_detector] *)
Definition setup_detector (config_name : string)
    : result (Dictionary * DetectorParameters * Config) :=
  cfg ← dict_get configs config_name;
  let dictionary := getPredefinedDictionary DICT_7X7_50 in
  let parameters := DetectorParameters_create in
  (* Apply configuration *)
  let parameters :=
    set_adaptiveThreshConstant (inject_Z (adaptive_thresh_constant cfg)) parameters in
  let parameters :=
    set_cornerRefinementMaxIterations (corner_refinement_max_iterations cfg) parameters in
  let parameters := set_cornerRefinementMethod CORNER_REFINE_SUBPIX parameters in
  let parameters := set_minMarkerPerimeterRate 0.01%Q parameters in
  let parameters := set_maxMarkerPerimeterRate 4.0%Q parameters in
  let parameters := set_polygonalApproxAccuracyRate 0.03%Q parameters in
  let parameters := set_minCornerDistanceRate 0.03%Q parameters in
  let parameters := set_cornerRefinementWinSize 5%Z parameters in
  let parameters := set_cornerRefinementMinAccuracy 0.01%Q parameters in
  let parameters := set_errorCorrectionRate 0.6%Q parameters in
  let parameters := set_detectInvertedMarker true parameters in
  mret (dictionary, parameters, cfg).

(** *** [preprocess_image] *)
Definition preprocess_image (gray : loc) (config : Config) : M loc :=
  processed ← ndarray_copy gray;
  processed ← (if use_clahe config then
                 let clahe := cv2_createCLAHE 2.0%Q (8, 8)%Z in
                 clahe_apply clahe processed
               else mret processed);
  processed ← (if use_bilateral config then
                 cv2_bilateralFilter processed 5%Z 50%Q 50%Q
               else mret processed);
  mret processed.

(** *** [detect_markers] *)
Definition detect_markers (gray : loc) (dictionary : Dictionary)
    (parameters : DetectorParameters) (config : Config)
    : M (list Corners * option (list Z)) :=
  processed ← preprocess_image gray config;
  if use_multi_threshold config then
    let st := mk_merge_state [] [] ∅ in
    (* Adaptive *)
    '(corners, ids, _) ← cv2_aruco_detectMarkers processed dictionary parameters;
    st ← lift (merge_pass corners ids st);
    (* Otsu *)
    '(_, thresh_otsu) ← cv2_threshold processed 0%Q 255%Q (THRESH_BINARY + THRESH_OTSU)%Z;
    '(corners, ids, _) ← cv2_aruco_detectMarkers thresh_otsu dictionary parameters;
    st ← lift (merge_pass corners ids st);
    if (0 <? length (all_ids st))%nat
    then mret (all_corners st, Some (all_ids st))
    else mret ([], None)
  else
    '(corners, ids, _) ← cv2_aruco_detectMarkers processed dictionary parameters;
    mret (corners, ids).

(** *** The benchmark's view of a call of [detect_markers]

    The call is recorded in the trace with the contents of the image it
    is given, and the wall clock advances by the time the call takes. *)
Definition is_detect (e : Event) : bool :=
  match e with EvDetect _ => true | _ => false end.
Definition count_detect (tr : list Event) : nat :=
  length (List.filter is_detect tr).

Definition advance (seconds : Q) : M unit := λ w,
  (set_clock (clock w + seconds)%Q w, Ok tt).

Definition call_detect_markers (gray : loc) (dictionary : Dictionary)
    (parameters : DetectorParameters) (config : Config)
    : M (list Corners * option (list Z)) :=
  img ← load gray;
  k ← (λ w, (w, Ok (count_detect (trace w))));
  emit (EvDetect img);;
  r ← detect_markers gray dictionary parameters config;
  advance (duration_ms k / 1000)%Q;;
  mret r.

(** [time.time()]. *)
Definition time_time : M Q := λ w,
  (set_trace (trace w ++ [EvTime (clock w)]) w, Ok (clock w)).

(** *** [test_configuration] *)
Definition test_configuration (frame : loc) (config_name : string)
    : M BenchResult :=
  gray ← cv2_cvtColor frame COLOR_BGR2GRAY;
  '(dictionary, parameters, cfg) ← lift (setup_detector config_name);
  (* Warmup *)
  for_range 3
    (λ _, call_detect_markers gray dictionary parameters cfg;; mret tt) tt;;
  (* Time detection *)
  let num_iterations := 10%Z in
  start ← time_time;
  bound ← for_range (Z.to_nat num_iterations)
    (λ _, r ← call_detect_markers gray dictionary parameters cfg;
          mret (Some r)) None;
  now ← time_time;
  per_call ← lift (truediv (now - start)%Q (inject_Z num_iterations));
  let elapsed := (per_call * 1000)%Q in
  '(corners, ids) ← (match bound with
                     | Some r => mret r
                     | None => raise (UnboundLocalError "ids")
                     end);
  let num_detected :=
    match ids with
    | Some l => Z.of_nat (length l)
    | None => 0%Z
    end in
  fps_value ← (if Qgt_bool elapsed 0%Q then lift (truediv 1000%Q elapsed)
               else mret 0%Q);
  mret (mk_BenchResult config_name num_detected elapsed fps_value).

(** [time.time()] and [test_configuration] in floats: the clock reading
    is the double for the present time, and every operation rounds. With
    the identity for [rnd] these are [time_time] and [test_configuration]. *)
Definition time_time_float (rnd : Q → Q) : M Q := λ w,
  (set_trace (trace w ++ [EvTime (rnd (clock w))]) w, Ok (rnd (clock w))).

Definition test_configuration_float (rnd : Q → Q) (frame : loc)
    (config_name : string) : M BenchResult :=
  gray ← cv2_cvtColor frame COLOR_BGR2GRAY;
  '(dictionary, parameters, cfg) ← lift (setup_detector config_name);
  (* Warmup *)
  for_range 3
    (λ _, call_detect_markers gray dictionary parameters cfg;; mret tt) tt;;
  (* Time detection *)
  let num_iterations := 10%Z in
  start ← time_time_float rnd;
  bound ← for_range (Z.to_nat num_iterations)
    (λ _, r ← call_detect_markers gray dictionary parameters cfg;
          mret (Some r)) None;
  now ← time_time_float rnd;
  per_call ← lift (float_truediv rnd (float_sub rnd now start)
                     (inject_Z num_iterations));
  let elapsed := float_mul rnd per_call 1000%Q in
  '(corners, ids) ← (match bound with
                     | Some r => mret r
                     | None => raise (UnboundLocalError "ids")
                     end);
  let num_detected :=
    match ids with
    | Some l => Z.of_nat (length l)
    | None => 0%Z
    end in
  fps_value ← (if Qgt_bool elapsed 0%Q
               then lift (float_truediv rnd 1000%Q elapsed)
               else mret 0%Q);
  mret (mk_BenchResult config_name num_detected elapsed fps_value).

(** *** The camera, device 0 *)
Definition cv2_VideoCapture (index : Z) : M unit := mret tt.
Definition cap_isOpened : M bool := λ w, (w, Ok (cam_opened w)).
(** [cap.read()]: [None] stands for [(False, None)], [Some frame] for
    [(True, frame)]. *)
Definition cap_read : M (option loc) := λ w,
  match cam_opened w, cam_frame w with
  | true, Some img => (frame ← alloc img; mret (Some frame)) w
  | _, _ => (w, Ok None)
  end.
Definition cap_release : M unit := λ w, (set_cam_released true w, Ok tt).

Definition np_random_randint (low high : Z) (size : list Z) : M loc :=
  alloc (randint low high size).

(** [results[i]]. *)
Definition list_index {A} (l : list A) (i : nat) : M A :=
  match l !! i with
  | Some a => mret a
  | None => raise IndexError
  end.

(** *** [main] *)
Definition dashes : string := str_repeat "-" 60.

(** Lines 151 to 209: everything after a frame has been obtained. *)
Definition main_with_frame (frame : loc) : M unit :=
  print "";;
  print "Configuration Details:";;
  print dashes;;
  for_each configs (λ '(name, cfg) _,
    printf "\n{name.upper()}:" [VStr (upper name)];;
    for_each (config_items cfg) (λ '(key, value) _,
      printf "  {key}: {value}" [VStr key; value]) tt) tt;;
  print "";;
  print dashes;;
  print "Testing configurations...";;
  print dashes;;
  results ← for_each ["original"; "optimized"; "maximum"]
    (λ config_name results,
      emit (EvPrint (mk_printed "\nTesting {config_name}..."
                       [VStr config_name] (Some " ")));;
      result ← test_configuration frame config_name;
      print "Done!";;
      mret (results ++ [result])) [];
  print "";;
  print dashes;;
  print "Results:";;
  print dashes;;
  printf "{'Configuration':<15} {'Markers':<10} {'Time (ms)':<12} {'FPS':<10}"
    [VStr "Configuration"; VStr "Markers"; VStr "Time (ms)"; VStr "FPS"];;
  print dashes;;
  for_each results (λ result _,
    printf ("{result['config']:<15} {result['num_markers']:<10} " +:+
            "{result['time_ms']:<12.2f} {result['fps']:<10.1f}")
      [VStr (config result); VInt (num_markers result);
       VFloat (time_ms result); VFloat (fps result)]) tt;;
  (* Calculate improvements *)
  print "";;
  print dashes;;
  print "Improvements vs Original:";;
  print dashes;;
  first ← list_index results 0;
  let original_time := time_ms first in
  for_each (drop 1 results) (λ result _,
    let time_overhead := (time_ms result - original_time)%Q in
    ratio ← lift (truediv time_overhead original_time);
    let time_percent := (ratio * 100)%Q in
    printf "\n{result['config'].upper()}:" [VStr (upper (config result))];;
    first ← list_index results 0;
    printf ("  Markers detected: {result['num_markers']} " +:+
            "({'+' if result['num_markers'] > results[0]['num_markers'] else ''}" +:+
            "{result['num_markers'] - results[0]['num_markers']})")
      [VInt (num_markers result);
       VStr (if (num_markers first <? num_markers result)%Z then "+" else "");
       VInt (num_markers result - num_markers first)%Z];;
    printf "  Processing time: +{time_overhead:.2f}ms (+{time_percent:.1f}%)"
      [VFloat time_overhead; VFloat time_percent];;
    printf "  Still achieves {result['fps']:.1f} FPS" [VFloat (fps result)]) tt;;
  print "";;
  print dashes;;
  print "Recommendations:";;
  print dashes;;
  print "• Use 'optimized' for best balance (good detection, acceptable speed)";;
  print "• Use 'maximum' for challenging conditions (low light, motion blur)";;
  print "• Use 'original' only if processing time is critical and lighting is perfect";;
  print "";;
  print "To adjust settings, edit: config/aruco_advanced.yaml";;
  print "".

(** Lines 137 to 149: [None] is the early [return]. *)
Definition acquire_frame : M (option loc) :=
  cap ← cv2_VideoCapture 0%Z;
  opened ← cap_isOpened;
  if negb opened then
    print "Error: Could not open camera";;
    print "Using test image instead...";;
    (* Create a test frame with some noise *)
    frame ← np_random_randint 0 255 [480; 640; 3]%Z;
    mret (Some frame)
  else
    r ← cap_read;
    match r with
    | None =>
        print "Error: Could not read frame";;
        mret None
    | Some frame =>
        cap_release;;
        img ← load frame;
        printf "Using camera frame: {frame.shape}" [VShape (shape img)];;
        mret (Some frame)
    end.

Definition main : M unit :=
  print "ArUco Detection Optimization Comparison";;
  print (str_repeat "=" 60);;
  print "";;
  (* Try to open camera *)
  got ← acquire_frame;
  match got with
  | None => mret tt
  | Some frame => main_with_frame frame
  end.

(** *** Vocabulary of the statements *)

(** The corner-set paired with the first occurrence of [id]. *)
Fixpoint corners_of (id : Z) (ids : list Z) (corners : list Corners)
    : option Corners :=
  match ids, corners with
  | i :: ids', c :: corners' =>
      if decide (i = id) then Some c else corners_of id ids' corners'
  | _, _ => None
  end.

(** The library's contract: one corner-set per identifier. *)
Definition well_formed (d : Detection) : Prop :=
  match d with
  | (corners, Some ids, _) => length corners = length ids
  | (_, None, _) => True
  end.

(** The invariant of the merge: the accumulators stay parallel, without
    a repeated identifier, and [seen_ids] is the set of [all_ids]. *)
Record merge_inv (st : merge_state) : Prop := mk_merge_inv {
  inv_length : length (all_ids st) = length (all_corners st);
  inv_nodup : NoDup (all_ids st);
  inv_seen : ∀ id, id ∈ seen_ids st ↔ id ∈ all_ids st
}.

(** The identifiers of a result, [None] being no identifier at all. *)
Definition ids_list (ids : option (list Z)) : list Z :=
  match ids with
  | Some l => l
  | None => []
  end.

(** The wall clock after calls of the given durations (in ms). *)
Definition tick_all (t : Q) (durations : list Q) : Q :=
  fold_left (λ t d, (t + d / 1000)%Q) durations t.

Definition Qsum (l : list Q) : Q := fold_right Qplus 0%Q l.

(** [w'] is [w] after a stretch of the run that allocated arrays,
    appended [evs] to the trace and took [durations] of wall time. *)
Record evolves (w w' : World) (evs : list Event) (durations : list Q)
    : Prop := mk_evolves {
  ev_heap : ∃ cells, heap w' = heap w ++ cells;
  ev_trace : trace w' = trace w ++ evs;
  ev_clock : clock w' = tick_all (clock w) durations;
  ev_opened : cam_opened w' = cam_opened w;
  ev_frame : cam_frame w' = cam_frame w
}.

(** The contents of the array [preprocess_image] returns for an input
    with contents [img]. *)
Definition preprocessed (img : Image) (config : Config) : Image :=
  let enhanced :=
    if use_clahe config
    then CLAHE_apply (mk_CLAHE 2.0%Q (8, 8)%Z) img
    else img in
  if use_bilateral config
  then bilateralFilter enhanced 5%Z 50%Q 50%Q
  else enhanced.

(** What [detect_markers] computes from the contents of its image. *)
Definition detect_value (img : Image) (dictionary : Dictionary)
    (parameters : DetectorParameters) (config : Config)
    : result (list Corners * option (list Z)) :=
  let processed := preprocessed img config in
  if use_multi_threshold config then
    let '(corners, ids, _) := detectMarkers processed dictionary parameters in
    st ← merge_pass corners ids (mk_merge_state [] [] ∅);
    let '(_, thresh_otsu) :=
      threshold processed 0%Q 255%Q (THRESH_BINARY + THRESH_OTSU)%Z in
    let '(corners, ids, _) := detectMarkers thresh_otsu dictionary parameters in
    st ← merge_pass corners ids st;
    if 0 <? length (all_ids st)
    then mret (all_corners st, Some (all_ids st))
    else mret ([], None)
  else
    let '(corners, ids, _) := detectMarkers processed dictionary parameters in
    mret (corners, ids).

(** The [fps] entry computed from the mean time. *)
Definition fps_of (elapsed : Q) : Q :=
  if Qgt_bool elapsed 0%Q then (1000 / elapsed)%Q else 0%Q.

(** [len(ids) if ids is not None else 0]. *)
Definition count_ids (ids : option (list Z)) : Z :=
  match ids with
  | Some l => Z.of_nat (length l)
  | None => 0%Z
  end.

(** A stretch of the trace without a call of [detect_markers]. *)
Definition silent (evs : list Event) : Prop :=
  List.filter is_detect evs = [].

(** A computation that only prints, and returns normally. *)
Definition calm (m : M unit) : Prop :=
  ∀ w, ∃ w' evs, m w = (w', Ok tt) ∧ evolves w w' evs [] ∧ silent evs.

(** [w] is the world of a run started in [w0] after [n] calls of
    [detect_markers], all of them on an image with contents [g]. *)
Record progress (w0 w : World) (n : nat) (g : Image) : Prop := mk_progress {
  pr_heap : ∃ cells, heap w = heap w0 ++ cells;
  pr_trace : ∃ evs, trace w = trace w0 ++ evs ∧
                    List.filter is_detect evs = replicate n (EvDetect g);
  pr_clock : clock w
             = tick_all (clock w0)
                 (duration_ms <$> seq (count_detect (trace w0)) n)
}.

(** The lines printed before the camera is opened. *)
Definition header : list Event :=
  [ EvPrint (mk_printed "ArUco Detection Optimization Comparison" [] None);
    EvPrint (mk_printed (str_repeat "=" 60) [] None);
    EvPrint (mk_printed "" [] None) ].

(** The mean time, in ms, that [test_configuration] reports when it is
    started in [w]. *)
Definition measured_ms (w : World) : Q :=
  let k := count_detect (trace w) in
  let t0 := tick_all (clock w) (duration_ms <$> seq k 3) in
  let t1 := tick_all t0 (duration_ms <$> seq (k + 3) 10) in
  ((t1 - t0) / inject_Z 10 * 1000)%Q.

(** The identifiers of [ids] that are neither in [seen] nor earlier in
    [ids], in the order of [ids]. *)
Fixpoint first_occurrences (seen : list Z) (ids : list Z) : list Z :=
  match ids with
  | [] => []
  | i :: rest =>
      if decide (i ∈ seen) then first_occurrences seen rest
      else i :: first_occurrences (seen ++ [i]) rest
  end.

(** What the multi-threshold branch of [detect_markers] returns when its
    accumulators are [st]. *)
Definition merged_output (st : merge_state)
    : list Corners * option (list Z) :=
  if 0 <? length (all_ids st)
  then (all_corners st, Some (all_ids st))
  else ([], None).

(** [m] leads from every world to one related to it by [R], whether it
    returns or raises. *)
Definition respects {A} (R : World → World → Prop) (m : M A) : Prop :=
  ∀ w, R w (fst (m w)).

(** From [w] to [w'] nothing was printed, no time passed, the camera is as
    it was, and the arrays of the store are all there, unchanged. *)
Record allocates_only (w w' : World) : Prop := mk_allocates_only {
  ao_trace : trace w' = trace w;
  ao_clock : clock w' = clock w;
  ao_opened : cam_opened w' = cam_opened w;
  ao_frame : cam_frame w' = cam_frame w;
  ao_released : cam_released w' = cam_released w;
  ao_heap : heap w `prefix_of` heap w'
}.

(** From [w] to [w'] the camera is as it was, and the store and the trace
    have only grown. *)
Record appends_only (w w' : World) : Prop := mk_appends_only {
  ap_opened : cam_opened w' = cam_opened w;
  ap_frame : cam_frame w' = cam_frame w;
  ap_released : cam_released w' = cam_released w;
  ap_heap : heap w `prefix_of` heap w';
  ap_trace : trace w `prefix_of` trace w'
}.

(** [r] is what [test_configuration] returns for the preset
    [config_name] on a frame with contents [fimg], when it is started after
    [calls] calls of [detect_markers]. *)
Definition benchmarked (frame : loc) (fimg : Image) (config_name : string)
    (calls : nat) (r : BenchResult) : Prop :=
  ∃ w w',
    heap w !! frame = Some fimg ∧
    count_detect (trace w) = calls ∧
    test_configuration frame config_name w = (w', Ok r).

(** The fields of the lines printed from the (f-)string [text], in the
    order of printing. *)
Definition printed_with (text : string) (evs : list Event)
    : list (list pyval) :=
  omap (λ e, match e with
             | EvPrint p =>
                 if String.eqb (template p) text then Some (fields p) else None
             | _ => None
             end) evs.

(** The f-strings of the report: a row of the results table, and the two
    measured lines of an improvement entry. *)
Definition row_template : string :=
  "{result['config']:<15} {result['num_markers']:<10} " +:+
  "{result['time_ms']:<12.2f} {result['fps']:<10.1f}".
Definition markers_template : string :=
  "  Markers detected: {result['num_markers']} " +:+
  "({'+' if result['num_markers'] > results[0]['num_markers'] else ''}" +:+
  "{result['num_markers'] - results[0]['num_markers']})".
Definition overhead_template : string :=
  "  Processing time: +{time_overhead:.2f}ms (+{time_percent:.1f}%)".

(** The values a result contributes to its row, and to its improvement
    entry relative to [first]. *)
Definition result_row (r : BenchResult) : list pyval :=
  [VStr (config r); VInt (num_markers r); VFloat (time_ms r); VFloat (fps r)].
Definition markers_fields (first r : BenchResult) : list pyval :=
  [VInt (num_markers r);
   VStr (if (num_markers first <? num_markers r)%Z then "+" else "");
   VInt (num_markers r - num_markers first)%Z].
Definition overhead_fields (first r : BenchResult) : list pyval :=
  [VFloat (time_ms r - time_ms first)%Q;
   VFloat ((time_ms r - time_ms first) / time_ms first * 100)%Q].

(** ** Properties *)

(** *** Running the monad *)

Lemma bind_ok {A B} (m : M A) (k : A → M B) w w1 a :
  m w = (w1, Ok a) → (m ≫= k) w = k a w1.
Proof. intros H. unfold mbind, M_bind. by rewrite H. Qed.

Lemma bind_raise {A B} (m : M A) (k : A → M B) w w1 e :
  m w = (w1, Raise e) → (m ≫= k) w = (w1, Raise e).
Proof. intros H. unfold mbind, M_bind. by rewrite H. Qed.

Lemma load_ok l w img : heap w !! l = Some img → load l w = (w, Ok img).
Proof. intros H. unfold load. by rewrite H. Qed.

Lemma lookup_fresh (h : list Image) img : (h ++ [img]) !! length h = Some img.
Proof. by rewrite list_lookup_middle. Qed.

Lemma lookup_old (h cells : list Image) l img :
  h !! l = Some img → (h ++ cells) !! l = Some img.
Proof. intros H. by apply lookup_app_l_Some. Qed.

(** *** The merge loop *)

Lemma corners_of_None id ids cs : id ∉ ids → corners_of id ids cs = None.
Proof.
  forget_unused.
  revert cs. induction ids as [|i ids IH]; intros [|c cs] Hid; simpl; try done.
  rewrite decide_False by set_solver. apply IH. set_solver.
Qed.

Lemma corners_of_app_l id ids ids' cs cs' :
  length ids = length cs → id ∈ ids →
  corners_of id (ids ++ ids') (cs ++ cs') = corners_of id ids cs.
Proof.
  forget_unused.
  revert cs. induction ids as [|i ids IH]; intros [|c cs] Hlen Hid;
    simpl in *; try done; [set_solver|].
  case_decide; [done|]. apply IH; [lia|set_solver].
Qed.

Lemma corners_of_app_r id ids ids' cs cs' :
  length ids = length cs → id ∉ ids →
  corners_of id (ids ++ ids') (cs ++ cs') = corners_of id ids' cs'.
Proof.
  forget_unused.
  revert cs. induction ids as [|i ids IH]; intros [|c cs] Hlen Hid;
    simpl in *; try done.
  case_decide; [set_solver|]. apply IH; [lia|set_solver].
Qed.

Lemma corners_of_lookup id ids cs k c :
  NoDup ids → ids !! k = Some id → cs !! k = Some c →
  corners_of id ids cs = Some c.
Proof.
  revert cs k. induction ids as [|i ids IH]; intros [|c' cs] k Hnd Hi Hc;
    try done.
  apply NoDup_cons in Hnd as [Hni Hnd]. destruct k as [|k]; simpl in *.
  - simplify_eq. by rewrite decide_True.
  - rewrite decide_False; [by eapply IH|].
    intros ->. apply Hni. by eapply list_elem_of_lookup_2.
Qed.

Lemma merge_inv_empty : merge_inv (mk_merge_state [] [] ∅).
Proof. forget_unused. split; simpl; [done|constructor|set_solver]. Qed.

Lemma merge_loop_spec ids : ∀ corners i st,
  i + length ids ≤ length corners →
  merge_inv st →
  ∃ st', merge_loop corners i ids st = Ok st' ∧ merge_inv st' ∧
    (∀ id, id ∈ all_ids st →
       corners_of id (all_ids st') (all_corners st')
       = corners_of id (all_ids st) (all_corners st)) ∧
    (∀ id, id ∉ all_ids st →
       corners_of id (all_ids st') (all_corners st')
       = corners_of id ids (drop i corners)) ∧
    (∀ id, id ∈ all_ids st' ↔ id ∈ all_ids st ∨ id ∈ ids).
Proof.
  forget_unused.
  induction ids as [|m rest IH]; intros corners i st Hlen Hinv; simpl in *.
  - exists st. split_and!; try done.
    + intros id Hid. rewrite corners_of_None by done. by destruct (drop i corners).
    + set_solver.
  - destruct (lookup_lt_is_Some_2 corners i) as [c Hc]; [lia|].
    rewrite (drop_S _ _ _ Hc).
    case_decide as Hseen.
    + apply (inv_seen _ Hinv) in Hseen.
      destruct (IH corners (S i) st) as (st' & Hrun & Hinv' & H1 & H2 & H3);
        [lia|done|].
      exists st'. split_and!; try done.
      * intros id Hid. simpl. rewrite decide_False; [by apply H2|].
        by intros ->.
      * intros id. rewrite H3. set_solver.
    + rewrite Hc.
      assert (Hm : m ∉ all_ids st) by (by rewrite <- (inv_seen _ Hinv)).
      set (st1 := mk_merge_state _ _ _).
      assert (Hinv1 : merge_inv st1).
      { split; simpl.
        - rewrite !length_app, (inv_length _ Hinv). done.
        - apply NoDup_app. split_and!; [by apply Hinv| |apply NoDup_singleton].
          intros x Hx ?. set_solver.
        - intros id. rewrite elem_of_union, elem_of_singleton, (inv_seen _ Hinv).
          set_solver. }
      destruct (IH corners (S i) st1) as (st' & Hrun & Hinv' & H1 & H2 & H3);
        [lia|done|].
      exists st'. split_and!; try done.
      * intros id Hid. rewrite H1 by (subst st1; simpl; set_solver).
        subst st1; simpl. apply corners_of_app_l; [by apply Hinv|done].
      * intros id Hid. simpl. case_decide as Heq.
        -- subst id. rewrite H1 by (subst st1; simpl; set_solver).
           subst st1; simpl.
           rewrite corners_of_app_r; [|by apply Hinv|done].
           simpl. by rewrite decide_True.
        -- apply H2. subst st1; simpl. set_solver.
      * intros id. rewrite H3. subst st1; simpl. set_solver.
Qed.

Lemma merge_pass_spec corners ids rejected st :
  well_formed (corners, ids, rejected) →
  merge_inv st →
  ∃ st', merge_pass corners ids st = Ok st' ∧ merge_inv st' ∧
    (∀ id, id ∈ all_ids st →
       corners_of id (all_ids st') (all_corners st')
       = corners_of id (all_ids st) (all_corners st)) ∧
    (∀ id, id ∉ all_ids st →
       corners_of id (all_ids st') (all_corners st')
       = corners_of id (ids_list ids) corners) ∧
    (∀ id, id ∈ all_ids st' ↔ id ∈ all_ids st ∨ id ∈ ids_list ids).
Proof.
  forget_unused.
  intros Hwf Hinv. destruct ids as [l|]; simpl in *.
  - destruct (merge_loop_spec l corners 0 st) as (st' & ? & ? & ? & ? & ?);
      [lia|done|]. by exists st'.
  - exists st. split_and!; try done.
    + intros id Hid. by apply corners_of_None.
    + set_solver.
Qed.

(** *** [preprocess_image] *)

Lemma preprocess_image_spec w gray img config :
  heap w !! gray = Some img →
  ∃ cells processed,
    preprocess_image gray config w
      = (set_heap (heap w ++ cells) w, Ok processed) ∧
    (heap w ++ cells) !! processed = Some (preprocessed img config) ∧
    length (heap w) ≤ processed.
Proof.
  intros Hgray.
  unfold preprocess_image, preprocessed, ndarray_copy, clahe_apply,
    cv2_bilateralFilter, cv2_createCLAHE.
  unfold mbind, M_bind, mret, M_ret, load, alloc.
  rewrite Hgray.
  destruct (use_clahe config), (use_bilateral config); simpl;
    repeat (rewrite lookup_fresh; simpl); unfold set_heap; simpl;
    rewrite <- ?(assoc_L (++));
    do 2 eexists; (split_and!;
      [reflexivity
      |rewrite ?(assoc_L (++)); apply lookup_fresh
      |rewrite ?length_app; simpl; lia]).
Qed.

(** *** [detect_markers] *)

Lemma detect_markers_value w gray img dictionary parameters config :
  heap w !! gray = Some img →
  ∃ cells,
    detect_markers gray dictionary parameters config w
    = (set_heap (heap w ++ cells) w,
       detect_value img dictionary parameters config).
Proof.
  intros Hgray.
  destruct (preprocess_image_spec w gray img config Hgray)
    as (cells & processed & Hrun & Hp & _).
  unfold detect_markers, detect_value.
  rewrite (bind_ok _ _ _ _ _ Hrun).
  unfold cv2_aruco_detectMarkers, cv2_threshold, lift.
  unfold mbind, M_bind, result_bind, mret, M_ret, result_ret, load, alloc.
  destruct (use_multi_threshold config); simpl; rewrite Hp.
  - destruct (detectMarkers (preprocessed img config) dictionary parameters)
      as [[cs1 ids1] rej1].
    destruct (merge_pass cs1 ids1 _) as [st1|e]; [|by exists cells].
    simpl. rewrite Hp. simpl.
    destruct (threshold _ _ _ _) as [t otsu]. simpl.
    rewrite lookup_fresh. simpl.
    destruct (detectMarkers otsu dictionary parameters) as [[cs2 ids2] rej2].
    exists (cells ++ [otsu]). unfold set_heap; simpl.
    rewrite (assoc_L (++)).
    destruct (merge_pass cs2 ids2 st1) as [st2|e]; [|done].
    by destruct (0 <? length (all_ids st2)).
  - destruct (detectMarkers (preprocessed img config) dictionary parameters)
      as [[cs1 ids1] rej1].
    by exists cells.
Qed.

Lemma detect_value_multi img dictionary parameters config :
  use_multi_threshold config = true →
  (∀ image, well_formed (detectMarkers image dictionary parameters)) →
  ∃ cs1 ids1 rej1 st1 t otsu cs2 ids2 rej2 st2,
    detectMarkers (preprocessed img config) dictionary parameters
      = (cs1, ids1, rej1) ∧
    threshold (preprocessed img config) 0%Q 255%Q
        (THRESH_BINARY + THRESH_OTSU)%Z = (t, otsu) ∧
    detectMarkers otsu dictionary parameters = (cs2, ids2, rej2) ∧
    merge_pass cs1 ids1 (mk_merge_state [] [] ∅) = Ok st1 ∧
    merge_pass cs2 ids2 st1 = Ok st2 ∧
    detect_value img dictionary parameters config
      = Ok (if 0 <? length (all_ids st2)
            then (all_corners st2, Some (all_ids st2))
            else ([], None)).
Proof.
  intros Hmulti Hwf. unfold detect_value. rewrite Hmulti.
  pose proof (Hwf (preprocessed img config)) as Hwf1.
  destruct (detectMarkers (preprocessed img config) dictionary parameters)
    as [[cs1 ids1] rej1] eqn:H1.
  destruct (merge_pass_spec cs1 ids1 rej1 _ Hwf1 merge_inv_empty)
    as (st1 & Hst1 & Hinv1 & _).
  destruct (threshold _ _ _ _) as [t otsu] eqn:Hotsu.
  pose proof (Hwf otsu) as Hwf2.
  destruct (detectMarkers otsu dictionary parameters)
    as [[cs2 ids2] rej2] eqn:H2.
  destruct (merge_pass_spec cs2 ids2 rej2 _ Hwf2 Hinv1)
    as (st2 & Hst2 & Hinv2 & _).
  exists cs1, ids1, rej1, st1, t, otsu, cs2, ids2, rej2, st2.
  split_and!; try done.
  rewrite Hst1. simpl. rewrite Hst2. simpl.
  by destruct (0 <? length (all_ids st2)).
Qed.

Lemma detect_value_ok img dictionary parameters config :
  (∀ image, well_formed (detectMarkers image dictionary parameters)) →
  ∃ v, detect_value img dictionary parameters config = Ok v.
Proof.
  intros Hwf. destruct (use_multi_threshold config) eqn:Hmulti.
  - destruct (detect_value_multi img dictionary parameters config Hmulti Hwf)
      as (? & ? & ? & ? & ? & ? & ? & ? & ? & ? & _ & _ & _ & _ & _ & Hv).
    eauto.
  - unfold detect_value. rewrite Hmulti.
    destruct (detectMarkers _ _ _) as [[cs ids] rej]. eauto.
Qed.

(** C8. [preprocess_image] returns a new array: it differs from its
    argument and from every array that existed before the call, every
    such array (the input among them) still holds what it held, and the
    new array holds the input enhanced by CLAHE (clip limit 2.0, tiles
    8x8) if enabled, then smoothed by the bilateral filter (5, 50, 50) if
    enabled, in this order. *)
Theorem preprocess_image_returns_fresh_image w gray img config :
  heap w !! gray = Some img →
  ∃ w' processed,
    preprocess_image gray config w = (w', Ok processed) ∧
    processed ≠ gray ∧
    heap w !! processed = None ∧
    heap w' !! gray = Some img ∧
    (∀ l old, heap w !! l = Some old → heap w' !! l = Some old) ∧
    heap w' !! processed
    = Some (let enhanced :=
              if use_clahe config
              then CLAHE_apply (cv2_createCLAHE 2.0%Q (8, 8)%Z) img
              else img in
            if use_bilateral config
            then bilateralFilter enhanced 5%Z 50%Q 50%Q
            else enhanced).
Proof.
  intros Hgray.
  destruct (preprocess_image_spec w gray img config Hgray)
    as (cells & processed & Hrun & Hp & Hfresh).
  exists (set_heap (heap w ++ cells) w), processed.
  split_and!; try done.
  - intros ->. apply lookup_lt_Some in Hgray. lia.
  - by apply lookup_ge_None.
  - by apply lookup_old.
  - intros l old Hl. by apply lookup_old.
Qed.

(** C3. With [use_multi_threshold] disabled, [detect_markers] returns the
    corners and identifiers of the one library detection on the
    preprocessed image, as the library returned them. *)
Theorem detect_markers_single_pass w gray img dictionary parameters config :
  heap w !! gray = Some img →
  use_multi_threshold config = false →
  ∃ w1 processed image,
    preprocess_image gray config w = (w1, Ok processed) ∧
    heap w1 !! processed = Some image ∧
    detect_markers gray dictionary parameters config w
    = (w1, Ok (fst (detectMarkers image dictionary parameters))).
Proof.
  intros Hgray Hmulti.
  destruct (preprocess_image_spec w gray img config Hgray)
    as (cells & processed & Hrun & Hp & _).
  exists (set_heap (heap w ++ cells) w), processed, (preprocessed img config).
  split_and!; try done.
  unfold detect_markers. rewrite (bind_ok _ _ _ _ _ Hrun), Hmulti.
  unfold cv2_aruco_detectMarkers.
  rewrite (bind_ok _ _ _ _ _ (bind_ok _ _ _ _ _
             (load_ok processed (set_heap (heap w ++ cells) w) _ Hp))).
  unfold mret, M_ret.
  by destruct (detectMarkers _ _ _) as [[cs ids] rej].
Qed.

(** C1. Multi-threshold merge: an identifier detected by the adaptive
    pass is returned with the corner-set the adaptive pass gave it; every
    entry of the output that carries this identifier carries that
    corner-set, whatever the Otsu pass detected. *)
Theorem detect_markers_adaptive_pass_wins
    w gray img dictionary parameters config cs1 ids1 rej1 marker_id :
  heap w !! gray = Some img →
  use_multi_threshold config = true →
  (∀ image, well_formed (detectMarkers image dictionary parameters)) →
  detectMarkers (preprocessed img config) dictionary parameters
    = (cs1, Some ids1, rej1) →
  marker_id ∈ ids1 →
  ∃ w' corners ids,
    detect_markers gray dictionary parameters config w
      = (w', Ok (corners, Some ids)) ∧
    marker_id ∈ ids ∧
    corners_of marker_id ids corners = corners_of marker_id ids1 cs1 ∧
    (∀ k c, ids !! k = Some marker_id → corners !! k = Some c →
            corners_of marker_id ids1 cs1 = Some c).
Proof.
  intros Hgray Hmulti Hwf Hpass1 Hid.
  destruct (detect_markers_value w gray img dictionary parameters config Hgray)
    as (cells & Hrun).
  destruct (detect_value_multi img dictionary parameters config Hmulti Hwf)
    as (cs1' & ids1' & rej1' & st1 & t & otsu & cs2 & ids2 & rej2 & st2
        & H1 & Hotsu & H2 & Hst1 & Hst2 & Hv).
  rewrite Hpass1 in H1. symmetry in H1. inversion H1; subst cs1' ids1' rej1'.
  clear H1.
  pose proof (Hwf (preprocessed img config)) as Hwf1. rewrite Hpass1 in Hwf1.
  pose proof (Hwf otsu) as Hwf2. rewrite H2 in Hwf2.
  destruct (merge_pass_spec cs1 (Some ids1) rej1 _ Hwf1 merge_inv_empty)
    as (st1' & Hst1' & Hinv1 & _ & Hnew1 & Hin1).
  assert (st1' = st1) as -> by congruence.
  destruct (merge_pass_spec cs2 ids2 rej2 _ Hwf2 Hinv1)
    as (st2' & Hst2' & Hinv2 & Hold2 & _ & Hin2).
  assert (st2' = st2) as -> by congruence.
  assert (Hin : marker_id ∈ all_ids st1) by (apply Hin1; by right).
  assert (Hin' : marker_id ∈ all_ids st2) by (apply Hin2; by left).
  assert (Hcs : corners_of marker_id (all_ids st2) (all_corners st2)
                = corners_of marker_id ids1 cs1).
  { rewrite (Hold2 _ Hin). apply Hnew1. simpl. set_solver. }
  rewrite Hv in Hrun.
  destruct (all_ids st2) as [|i0 rest] eqn:Hids; [set_solver|].
  simpl in Hrun. rewrite <- Hids in *.
  exists (set_heap (heap w ++ cells) w), (all_corners st2), (all_ids st2).
  split_and!; try done.
  intros k c Hk Hc. rewrite <- Hcs.
  eapply corners_of_lookup; [apply Hinv2|done|done].
Qed.

(** C2. With [use_multi_threshold] enabled, the identifiers returned by
    [detect_markers] are pairwise distinct. *)
Theorem detect_markers_ids_distinct w gray img dictionary parameters config :
  heap w !! gray = Some img →
  use_multi_threshold config = true →
  (∀ image, well_formed (detectMarkers image dictionary parameters)) →
  ∃ w' corners ids,
    detect_markers gray dictionary parameters config w
      = (w', Ok (corners, ids)) ∧
    NoDup (ids_list ids) ∧
    length corners = length (ids_list ids).
Proof.
  intros Hgray Hmulti Hwf.
  destruct (detect_markers_value w gray img dictionary parameters config Hgray)
    as (cells & Hrun).
  destruct (detect_value_multi img dictionary parameters config Hmulti Hwf)
    as (cs1 & ids1 & rej1 & st1 & t & otsu & cs2 & ids2 & rej2 & st2
        & H1 & Hotsu & H2 & Hst1 & Hst2 & Hv).
  pose proof (Hwf (preprocessed img config)) as Hwf1. rewrite H1 in Hwf1.
  pose proof (Hwf otsu) as Hwf2. rewrite H2 in Hwf2.
  destruct (merge_pass_spec cs1 ids1 rej1 _ Hwf1 merge_inv_empty)
    as (st1' & Hst1' & Hinv1 & _).
  assert (st1' = st1) as -> by congruence.
  destruct (merge_pass_spec cs2 ids2 rej2 _ Hwf2 Hinv1)
    as (st2' & Hst2' & Hinv2 & _).
  assert (st2' = st2) as -> by congruence.
  rewrite Hv in Hrun.
  destruct (0 <? length (all_ids st2)).
  - exists (set_heap (heap w ++ cells) w), (all_corners st2),
      (Some (all_ids st2)).
    split_and!; [done|apply Hinv2|symmetry; apply Hinv2].
  - exists (set_heap (heap w ++ cells) w), [], None.
    split_and!; [done|constructor|done].
Qed.

(** C6. For each of the three presets, [setup_detector] succeeds and the
    parameter object has the fixed fields at their constants, the
    adaptive-threshold constant and the maximum number of refinement
    iterations being those of the preset. *)
Theorem setup_detector_fields config_name :
  config_name ∈ ["original"; "optimized"; "maximum"] →
  ∃ parameters cfg,
    dict_get configs config_name = Ok cfg ∧
    setup_detector config_name
      = Ok (getPredefinedDictionary DICT_7X7_50, parameters, cfg) ∧
    adaptiveThreshConstant parameters
      = inject_Z (adaptive_thresh_constant cfg) ∧
    cornerRefinementMaxIterations parameters
      = corner_refinement_max_iterations cfg ∧
    cornerRefinementMethod parameters = CORNER_REFINE_SUBPIX ∧
    minMarkerPerimeterRate parameters = 0.01%Q ∧
    maxMarkerPerimeterRate parameters = 4.0%Q ∧
    polygonalApproxAccuracyRate parameters = 0.03%Q ∧
    minCornerDistanceRate parameters = 0.03%Q ∧
    cornerRefinementWinSize parameters = 5%Z ∧
    cornerRefinementMinAccuracy parameters = 0.01%Q ∧
    errorCorrectionRate parameters = 0.6%Q ∧
    detectInvertedMarker parameters = true.
Proof.
  intros Hname. unfold setup_detector.
  repeat (apply elem_of_cons in Hname as [->|Hname]);
    [..|by apply elem_of_nil in Hname];
    simpl; do 2 eexists; split_and!; reflexivity.
Qed.

(** *** How the world evolves *)

Lemma evolves_refl w : evolves w w [] [].
Proof.
  split; try done; [exists []|]; by rewrite (right_id_L [] (++)).
Qed.

Lemma evolves_trans w1 w2 w3 evs1 evs2 ds1 ds2 :
  evolves w1 w2 evs1 ds1 → evolves w2 w3 evs2 ds2 →
  evolves w1 w3 (evs1 ++ evs2) (ds1 ++ ds2).
Proof.
  intros [[c1 Hh1] Ht1 Hc1 Ho1 Hf1] [[c2 Hh2] Ht2 Hc2 Ho2 Hf2]. split.
  - exists (c1 ++ c2). by rewrite Hh2, Hh1, (assoc_L (++)).
  - by rewrite Ht2, Ht1, (assoc_L (++)).
  - unfold tick_all in *. by rewrite fold_left_app, <- Hc1, <- Hc2.
  - congruence.
  - congruence.
Qed.

Lemma evolves_lookup w w' evs ds l img :
  evolves w w' evs ds → heap w !! l = Some img → heap w' !! l = Some img.
Proof. intros [[c ->] _ _ _ _] Hl. by apply lookup_old. Qed.

Lemma count_detect_app tr tr' :
  count_detect (tr ++ tr') = count_detect tr + count_detect tr'.
Proof. unfold count_detect. by rewrite List.filter_app, length_app. Qed.

Lemma emit_evolves e w : evolves w (set_trace (trace w ++ [e]) w) [e] [].
Proof. split; try done. exists []. simpl. by rewrite (right_id_L [] (++)). Qed.

Lemma set_heap_evolves w cells : evolves w (set_heap (heap w ++ cells) w) [] [].
Proof.
  split; try done; [by exists cells|]. simpl. by rewrite (right_id_L [] (++)).
Qed.

(** *** One call, and a loop of calls, of [detect_markers] *)

Lemma call_detect_markers_spec w gray g dictionary parameters config v :
  heap w !! gray = Some g →
  detect_value g dictionary parameters config = Ok v →
  ∃ w',
    call_detect_markers gray dictionary parameters config w = (w', Ok v) ∧
    evolves w w' [EvDetect g] [duration_ms (count_detect (trace w))].
Proof.
  intros Hgray Hv. unfold call_detect_markers.
  rewrite (bind_ok _ _ _ _ _ (load_ok _ _ _ Hgray)).
  unfold mbind at 1, M_bind at 1.
  unfold mbind at 1, M_bind at 1, emit at 1.
  set (w1 := set_trace (trace w ++ [EvDetect g]) w).
  destruct (detect_markers_value w1 gray g dictionary parameters config Hgray)
    as (cells & Hrun).
  rewrite Hv in Hrun. rewrite (bind_ok _ _ _ _ _ Hrun).
  unfold mbind, M_bind, advance, mret, M_ret.
  eexists. split; [reflexivity|].
  split; simpl; try done. by exists cells.
Qed.

Lemma calls_spec {A} (f : list Corners * option (list Z) → A)
    gray g dictionary parameters config v n :
  detect_value g dictionary parameters config = Ok v →
  ∀ w (a : A),
    heap w !! gray = Some g →
    ∃ w',
      for_range n
        (λ _, r ← call_detect_markers gray dictionary parameters config;
              mret (f r)) a w
      = (w', Ok (match n with O => a | S _ => f v end)) ∧
      evolves w w' (replicate n (EvDetect g))
        (duration_ms <$> seq (count_detect (trace w)) n) ∧
      (n ≠ 0 →
       ∃ w_last,
         call_detect_markers gray dictionary parameters config w_last
           = (w', Ok v) ∧
         heap w_last !! gray = Some g).
Proof.
  intros Hv. induction n as [|n IH]; intros w a Hgray.
  - exists w. split_and!; [done|apply evolves_refl|done].
  - destruct (call_detect_markers_spec w gray g dictionary parameters config v
                Hgray Hv) as (w1 & Hcall & Hev1).
    assert (Hbody :
      (call_detect_markers gray dictionary parameters config
         ≫= λ r, mret (f r)) w = (w1, Ok (f v)))
      by (by rewrite (bind_ok _ _ _ _ _ Hcall)).
    simpl for_range. rewrite (bind_ok _ _ _ _ _ Hbody).
    pose proof (evolves_lookup _ _ _ _ _ _ Hev1 Hgray) as Hgray1.
    destruct (IH w1 (f v) Hgray1) as (w' & Hrun & Hev & Hlast).
    exists w'. split_and!.
    + rewrite Hrun. by destruct n.
    + replace (count_detect (trace w1)) with (S (count_detect (trace w)))
        in Hev.
      * apply (evolves_trans _ _ _ _ _ _ _ Hev1 Hev).
      * rewrite (ev_trace _ _ _ _ Hev1), count_detect_app.
        change (count_detect [EvDetect g]) with 1. lia.
    + intros _. destruct n as [|n].
      * simpl in Hrun. unfold mret, M_ret in Hrun. simplify_eq. eauto.
      * by apply Hlast.
Qed.

(** *** [test_configuration] *)

Lemma fps_branch elapsed w :
  (if Qgt_bool elapsed 0%Q then lift (truediv 1000%Q elapsed) else mret 0%Q) w
  = (w, Ok (fps_of elapsed)).
Proof.
  unfold fps_of, Qgt_bool, truediv, lift.
  destruct (Qle_bool elapsed 0) eqn:Hle; [done|]. simpl.
  destruct (Qeq_bool elapsed 0) eqn:Heq; [|done].
  apply Qeq_bool_iff in Heq.
  assert (Qle_bool elapsed 0 = true); [|congruence].
  apply Qle_bool_iff. rewrite Heq. apply Qle_refl.
Qed.

Lemma setup_detector_ok config_name cfg :
  dict_get configs config_name = Ok cfg →
  ∃ dictionary parameters,
    setup_detector config_name = Ok (dictionary, parameters, cfg).
Proof. intros H. unfold setup_detector. rewrite H. simpl. eauto. Qed.

Lemma test_configuration_spec w frame fimg config_name cfg :
  heap w !! frame = Some fimg →
  dict_get configs config_name = Ok cfg →
  (∀ dictionary parameters image,
     well_formed (detectMarkers image dictionary parameters)) →
  let g := cvtColor fimg COLOR_BGR2GRAY in
  let k := count_detect (trace w) in
  let t0 := tick_all (clock w) (duration_ms <$> seq k 3) in
  let t1 := tick_all t0 (duration_ms <$> seq (k + 3) 10) in
  let elapsed := ((t1 - t0) / inject_Z 10 * 1000)%Q in
  ∃ w' dictionary parameters v w_prev w_last,
    setup_detector config_name = Ok (dictionary, parameters, cfg) ∧
    detect_value g dictionary parameters cfg = Ok v ∧
    test_configuration frame config_name w
      = (w', Ok (mk_BenchResult config_name (count_ids (snd v)) elapsed
                   (fps_of elapsed))) ∧
    evolves w w'
      (replicate 3 (EvDetect g) ++ [EvTime t0] ++
       replicate 10 (EvDetect g) ++ [EvTime t1])
      ((duration_ms <$> seq k 3) ++ (duration_ms <$> seq (k + 3) 10)) ∧
    call_detect_markers (length (heap w)) dictionary parameters cfg w_prev
      = (w_last, Ok v) ∧
    w' = set_trace (trace w_last ++ [EvTime (clock w_last)]) w_last.
Proof.
  intros Hframe Hcfg Hwf g k t0 t1 elapsed.
  destruct (setup_detector_ok config_name cfg Hcfg)
    as (dictionary & parameters & Hsetup).
  destruct (detect_value_ok g dictionary parameters cfg (Hwf _ _)) as (v & Hv).
  unfold test_configuration.
  (* gray = cv2.cvtColor(frame, cv2.COLOR_BGR2GRAY) *)
  set (wa := set_heap (heap w ++ [g]) w).
  assert (Hcvt : cv2_cvtColor frame COLOR_BGR2GRAY w = (wa, Ok (length (heap w)))).
  { unfold cv2_cvtColor. by rewrite (bind_ok _ _ _ _ _ (load_ok _ _ _ Hframe)). }
  rewrite (bind_ok _ _ _ _ _ Hcvt).
  assert (Hgray : heap wa !! length (heap w) = Some g) by apply lookup_fresh.
  assert (Hlift : lift (setup_detector config_name) wa
                  = (wa, Ok (dictionary, parameters, cfg)))
    by (unfold lift; by rewrite Hsetup).
  rewrite (bind_ok _ _ _ _ _ Hlift).
  (* warm-up *)
  destruct (calls_spec (λ _, tt) (length (heap w)) g dictionary parameters cfg
              v 3 Hv wa tt Hgray) as (wb & Hwarm & Hevb & _).
  rewrite (bind_ok _ _ _ _ _ Hwarm).
  (* start = time.time() *)
  set (wc := set_trace (trace wb ++ [EvTime (clock wb)]) wb).
  assert (Hstart : time_time wb = (wc, Ok (clock wb))) by done.
  rewrite (bind_ok _ _ _ _ _ Hstart).
  pose proof (evolves_trans _ _ _ _ _ _ _ (set_heap_evolves w [g]) Hevb)
    as Hev_ab. fold wa in Hev_ab.
  pose proof (evolves_trans _ _ _ _ _ _ _ Hev_ab
                (emit_evolves (EvTime (clock wb)) wb))
    as Hev_ac. fold wc in Hev_ac.
  assert (Hgrayc : heap wc !! length (heap w) = Some g).
  { apply (evolves_lookup wa wc _ _ _ _
             (evolves_trans _ _ _ _ _ _ _ Hevb
                (emit_evolves (EvTime (clock wb)) wb)) Hgray). }
  (* the timed loop *)
  change (Z.to_nat 10) with 10.
  destruct (calls_spec Some (length (heap w)) g dictionary parameters cfg
              v 10 Hv wc None Hgrayc) as (wd & Htimed & Hevd & Hlast).
  rewrite (bind_ok _ _ _ _ _ Htimed).
  destruct Hlast as (w_prev & Hcall & _); [done|].
  (* now = time.time() *)
  set (we := set_trace (trace wd ++ [EvTime (clock wd)]) wd).
  assert (Hnow : time_time wd = (we, Ok (clock wd))) by done.
  rewrite (bind_ok _ _ _ _ _ Hnow).
  assert (Hkc : count_detect (trace wc) = k + 3).
  { rewrite (ev_trace _ _ _ _ Hev_ac), count_detect_app. subst k. done. }
  rewrite Hkc in Hevd.
  assert (Hclock_b : clock wb = t0).
  { rewrite (ev_clock _ _ _ _ Hevb). done. }
  assert (Hclock_d : clock wd = t1).
  { rewrite (ev_clock _ _ _ _ Hevd). subst wc. simpl. by rewrite Hclock_b. }
  rewrite Hclock_b, Hclock_d.
  assert (Hdiv : lift (truediv (t1 - t0)%Q (inject_Z 10)) we
                 = (we, Ok ((t1 - t0) / inject_Z 10)%Q)) by done.
  rewrite (bind_ok _ _ _ _ _ Hdiv).
  destruct v as [corners ids].
  unfold mret at 1, M_ret at 1.
  rewrite (bind_ok _ _ _ _ _ (eq_refl : (we, Ok (corners, ids)) = _)).
  rewrite (bind_ok _ _ _ _ _ (fps_branch _ we)).
  exists we, dictionary, parameters, (corners, ids), w_prev, wd.
  split_and!; try done.
  pose proof (evolves_trans _ _ _ _ _ _ _ Hev_ac
                (evolves_trans _ _ _ _ _ _ _ Hevd
                   (emit_evolves (EvTime (clock wd)) wd)))
    as Hev. fold we in Hev.
  rewrite Hclock_b, Hclock_d in Hev.
  rewrite !(right_id_L [] (++)) in Hev.
  rewrite <- !(assoc_L (++)) in Hev. exact Hev.
Qed.

Lemma preset_lookup config_name :
  config_name ∈ ["original"; "optimized"; "maximum"] →
  ∃ cfg, dict_get configs config_name = Ok cfg.
Proof.
  intros Hname.
  repeat (apply elem_of_cons in Hname as [->|Hname]);
    [..|by apply elem_of_nil in Hname]; simpl; eauto.
Qed.

Lemma tick_all_sum ds : ∀ t, (tick_all t ds == t + Qsum ds / 1000)%Q.
Proof.
  induction ds as [|d ds IH]; intros t; simpl.
  - unfold Qsum; simpl. field.
  - change (tick_all (t + d / 1000)%Q ds == t + (d + Qsum ds) / 1000)%Q.
    rewrite IH. field.
Qed.


Lemma elapsed_mean t0 ds :
  ((tick_all t0 ds - t0) / inject_Z 10 * 1000 == Qsum ds / 10)%Q.
Proof. rewrite tick_all_sum. field. Qed.

Lemma fps_of_pos elapsed : (0 < elapsed)%Q → fps_of elapsed = (1000 / elapsed)%Q.
Proof.
  intros Hpos. unfold fps_of, Qgt_bool.
  destruct (Qle_bool elapsed 0) eqn:Hle; [|done].
  apply Qle_bool_iff in Hle. by apply Qle_not_lt in Hle.
Qed.

Lemma fps_of_nonpos elapsed : (elapsed <= 0)%Q → fps_of elapsed = 0%Q.
Proof.
  intros Hle. unfold fps_of, Qgt_bool.
  apply Qle_bool_iff in Hle. by rewrite Hle.
Qed.

(** [test_configuration] is [test_configuration_float] in exact
    arithmetic. *)
Lemma test_configuration_exact frame config_name :
  test_configuration frame config_name
  = test_configuration_float (λ q, q) frame config_name.
Proof. reflexivity. Qed.

Lemma fps_branch_float rnd elapsed w :
  (if Qgt_bool elapsed 0%Q then lift (float_truediv rnd 1000%Q elapsed)
   else mret 0%Q) w
  = (w, Ok (if Qgt_bool elapsed 0%Q then rnd (1000 / elapsed)%Q else 0%Q)).
Proof.
  unfold Qgt_bool, float_truediv, lift.
  destruct (Qle_bool elapsed 0) eqn:Hle; [done|]. simpl.
  destruct (Qeq_bool elapsed 0) eqn:Heq; [|done].
  apply Qeq_bool_iff in Heq.
  assert (Qle_bool elapsed 0 = true); [|congruence].
  apply Qle_bool_iff. rewrite Heq. apply Qle_refl.
Qed.

Lemma test_configuration_float_spec rnd w frame fimg config_name cfg :
  heap w !! frame = Some fimg →
  dict_get configs config_name = Ok cfg →
  (∀ dictionary parameters image,
     well_formed (detectMarkers image dictionary parameters)) →
  let g := cvtColor fimg COLOR_BGR2GRAY in
  let k := count_detect (trace w) in
  let c0 := tick_all (clock w) (duration_ms <$> seq k 3) in
  let c1 := tick_all c0 (duration_ms <$> seq (k + 3) 10) in
  let elapsed :=
    rnd (rnd (rnd (rnd c1 - rnd c0) / inject_Z 10) * 1000)%Q in
  ∃ w' (v : list Corners * option (list Z)),
    test_configuration_float rnd frame config_name w
      = (w', Ok (mk_BenchResult config_name (count_ids (snd v)) elapsed
                   (if Qgt_bool elapsed 0%Q
                    then rnd (1000 / elapsed)%Q else 0%Q))) ∧
    evolves w w'
      (replicate 3 (EvDetect g) ++ [EvTime (rnd c0)] ++
       replicate 10 (EvDetect g) ++ [EvTime (rnd c1)])
      ((duration_ms <$> seq k 3) ++ (duration_ms <$> seq (k + 3) 10)).
Proof.
  intros Hframe Hcfg Hwf g k c0 c1 elapsed.
  destruct (setup_detector_ok config_name cfg Hcfg)
    as (dictionary & parameters & Hsetup).
  destruct (detect_value_ok g dictionary parameters cfg (Hwf _ _)) as (v & Hv).
  unfold test_configuration_float.
  (* gray = cv2.cvtColor(frame, cv2.COLOR_BGR2GRAY) *)
  set (wa := set_heap (heap w ++ [g]) w).
  assert (Hcvt : cv2_cvtColor frame COLOR_BGR2GRAY w = (wa, Ok (length (heap w)))).
  { unfold cv2_cvtColor. by rewrite (bind_ok _ _ _ _ _ (load_ok _ _ _ Hframe)). }
  rewrite (bind_ok _ _ _ _ _ Hcvt).
  assert (Hgray : heap wa !! length (heap w) = Some g) by apply lookup_fresh.
  assert (Hlift : lift (setup_detector config_name) wa
                  = (wa, Ok (dictionary, parameters, cfg)))
    by (unfold lift; by rewrite Hsetup).
  rewrite (bind_ok _ _ _ _ _ Hlift).
  (* warm-up *)
  destruct (calls_spec (λ _, tt) (length (heap w)) g dictionary parameters cfg
              v 3 Hv wa tt Hgray) as (wb & Hwarm & Hevb & _).
  rewrite (bind_ok _ _ _ _ _ Hwarm).
  (* start = time.time() *)
  set (wc := set_trace (trace wb ++ [EvTime (rnd (clock wb))]) wb).
  assert (Hstart : time_time_float rnd wb = (wc, Ok (rnd (clock wb)))) by done.
  rewrite (bind_ok _ _ _ _ _ Hstart).
  pose proof (evolves_trans _ _ _ _ _ _ _ (set_heap_evolves w [g]) Hevb)
    as Hev_ab. fold wa in Hev_ab.
  pose proof (evolves_trans _ _ _ _ _ _ _ Hev_ab
                (emit_evolves (EvTime (rnd (clock wb))) wb))
    as Hev_ac. fold wc in Hev_ac.
  assert (Hgrayc : heap wc !! length (heap w) = Some g).
  { apply (evolves_lookup wa wc _ _ _ _
             (evolves_trans _ _ _ _ _ _ _ Hevb
                (emit_evolves (EvTime (rnd (clock wb))) wb)) Hgray). }
  (* the timed loop *)
  change (Z.to_nat 10) with 10.
  destruct (calls_spec Some (length (heap w)) g dictionary parameters cfg
              v 10 Hv wc None Hgrayc) as (wd & Htimed & Hevd & _).
  rewrite (bind_ok _ _ _ _ _ Htimed).
  (* now = time.time() *)
  set (we := set_trace (trace wd ++ [EvTime (rnd (clock wd))]) wd).
  assert (Hnow : time_time_float rnd wd = (we, Ok (rnd (clock wd)))) by done.
  rewrite (bind_ok _ _ _ _ _ Hnow).
  assert (Hkc : count_detect (trace wc) = k + 3).
  { rewrite (ev_trace _ _ _ _ Hev_ac), count_detect_app. subst k. done. }
  rewrite Hkc in Hevd.
  assert (Hclock_b : clock wb = c0).
  { rewrite (ev_clock _ _ _ _ Hevb). done. }
  assert (Hclock_d : clock wd = c1).
  { rewrite (ev_clock _ _ _ _ Hevd). subst wc. simpl. by rewrite Hclock_b. }
  rewrite Hclock_b, Hclock_d.
  assert (Hdiv : lift (float_truediv rnd (float_sub rnd (rnd c1) (rnd c0))
                         (inject_Z 10)) we
                 = (we, Ok (rnd (rnd (rnd c1 - rnd c0) / inject_Z 10))%Q))
    by done.
  rewrite (bind_ok _ _ _ _ _ Hdiv).
  destruct v as [corners ids].
  unfold mret at 1, M_ret at 1.
  rewrite (bind_ok _ _ _ _ _ (eq_refl : (we, Ok (corners, ids)) = _)).
  rewrite (bind_ok _ _ _ _ _ (fps_branch_float rnd _ we)).
  exists we, (corners, ids).
  split; [done|].
  pose proof (evolves_trans _ _ _ _ _ _ _ Hev_ac
                (evolves_trans _ _ _ _ _ _ _ Hevd
                   (emit_evolves (EvTime (rnd (clock wd))) wd)))
    as Hev. fold we in Hev.
  rewrite Hclock_b, Hclock_d in Hev.
  rewrite !(right_id_L [] (++)) in Hev.
  rewrite <- !(assoc_L (++)) in Hev. exact Hev.
Qed.


(** C5. [test_configuration] returns normally; the reported number of
    markers is the length of the identifier array of the last call of
    [detect_markers] (the one the second clock reading follows), and 0
    when that call returned [None]; when the measured mean time is 0 (or
    not positive) the reported [fps] is 0. *)
Theorem test_configuration_null_ids_and_zero_time w frame fimg config_name :
  heap w !! frame = Some fimg →
  config_name ∈ ["original"; "optimized"; "maximum"] →
  (∀ dictionary parameters image,
     well_formed (detectMarkers image dictionary parameters)) →
  ∃ w' r gray dictionary parameters cfg w_prev w_last corners ids,
    test_configuration frame config_name w = (w', Ok r) ∧
    call_detect_markers gray dictionary parameters cfg w_prev
      = (w_last, Ok (corners, ids)) ∧
    w' = set_trace (trace w_last ++ [EvTime (clock w_last)]) w_last ∧
    num_markers r = count_ids ids ∧
    (ids = None → num_markers r = 0%Z) ∧
    ((time_ms r == 0)%Q → fps r = 0%Q) ∧
    ((time_ms r <= 0)%Q → fps r = 0%Q).
Proof.
  intros Hframe Hname Hwf.
  destruct (preset_lookup config_name Hname) as (cfg & Hcfg).
  destruct (test_configuration_spec w frame fimg config_name cfg
              Hframe Hcfg Hwf)
    as (w' & dictionary & parameters & [corners ids] & w_prev & w_last
        & _ & _ & Hrun & _ & Hcall & Hw').
  eexists w', _, (length (heap w)), dictionary, parameters, cfg,
    w_prev, w_last, corners, ids.
  split_and!; [exact Hrun|exact Hcall|exact Hw'|done| | |].
  - by intros ->.
  - intros Hz. apply fps_of_nonpos. simpl in Hz. rewrite Hz. apply Qle_refl.
  - intros Hz. by apply fps_of_nonpos.
Qed.

(** *** Printing *)

Lemma silent_app evs1 evs2 : silent evs1 → silent evs2 → silent (evs1 ++ evs2).
Proof. unfold silent. intros H1 H2. by rewrite List.filter_app, H1, H2. Qed.

Lemma calm_emit p : calm (emit (EvPrint p)).
Proof.
  intros w. exists (set_trace (trace w ++ [EvPrint p]) w), [EvPrint p].
  split_and!; [done|apply emit_evolves|done].
Qed.

Lemma calm_print s : calm (print s).
Proof. apply calm_emit. Qed.

Lemma calm_printf s vs : calm (printf s vs).
Proof. apply calm_emit. Qed.

Lemma calm_ret : calm (mret tt).
Proof. intros w. exists w, []. split_and!; [done|apply evolves_refl|done]. Qed.

Lemma calm_seq (m1 m2 : M unit) : calm m1 → calm m2 → calm (m1 ;; m2).
Proof.
  intros H1 H2 w.
  destruct (H1 w) as (w1 & evs1 & Hrun1 & Hev1 & Hs1).
  destruct (H2 w1) as (w2 & evs2 & Hrun2 & Hev2 & Hs2).
  exists w2, (evs1 ++ evs2). split_and!.
  - by rewrite (bind_ok _ _ _ _ _ Hrun1).
  - apply (evolves_trans _ _ _ _ _ _ _ Hev1 Hev2).
  - by apply silent_app.
Qed.

Lemma calm_for_each {B} (xs : list B) (body : B → unit → M unit) :
  (∀ x, calm (body x tt)) → calm (for_each xs body tt).
Proof.
  intros Hbody. induction xs as [|x xs IH]; simpl.
  - apply calm_ret.
  - intros w. destruct (Hbody x w) as (w1 & evs1 & Hrun1 & Hev1 & Hs1).
    destruct (IH w1) as (w2 & evs2 & Hrun2 & Hev2 & Hs2).
    exists w2, (evs1 ++ evs2). split_and!.
    + by rewrite (bind_ok _ _ _ _ _ Hrun1).
    + apply (evolves_trans _ _ _ _ _ _ _ Hev1 Hev2).
    + by apply silent_app.
Qed.

Lemma calm_step {B} (m : M unit) (k : unit → M B) w :
  calm m →
  ∃ w' evs, (m ≫= k) w = k tt w' ∧ evolves w w' evs [] ∧ silent evs.
Proof.
  intros Hm. destruct (Hm w) as (w1 & evs1 & Hrun1 & Hev1 & Hs1).
  exists w1, evs1. by rewrite (bind_ok _ _ _ _ _ Hrun1).
Qed.

Lemma bind_assoc {A B C} (m : M A) (k1 : A → M B) (k2 : B → M C) w :
  ((m ≫= k1) ≫= k2) w = (m ≫= λ a, k1 a ≫= k2) w.
Proof.
  unfold mbind, M_bind. destruct (m w) as [w1 [a|e]]; done.
Qed.

(** *** Progress of a run *)

Lemma progress_refl w g : progress w w 0 g.
Proof.
  split; [exists []|exists []|done]; by rewrite (right_id_L [] (++)).
Qed.

Lemma progress_calm w0 w w' n g evs :
  progress w0 w n g → evolves w w' evs [] → silent evs →
  progress w0 w' n g.
Proof.
  intros [[c Hh] (e & Ht & Hf) Hc] [[c' Hh'] Ht' Hc' _ _] Hs. split.
  - exists (c ++ c'). by rewrite Hh', Hh, (assoc_L (++)).
  - exists (e ++ evs). rewrite Ht', Ht, (assoc_L (++)). split; [done|].
    by rewrite List.filter_app, Hf, Hs, (right_id_L [] (++)).
  - by rewrite Hc'.
Qed.

Lemma progress_count w0 w n g :
  progress w0 w n g → count_detect (trace w) = count_detect (trace w0) + n.
Proof.
  intros [_ (e & Ht & Hf) _]. rewrite Ht, count_detect_app.
  unfold count_detect at 2. by rewrite Hf, length_replicate.
Qed.

Lemma progress_lookup w0 w n g l img :
  progress w0 w n g → heap w0 !! l = Some img → heap w !! l = Some img.
Proof. intros [[c ->] _ _] Hl. by apply lookup_old. Qed.

Lemma progress_bench w0 w w' n g evs ds :
  progress w0 w n g →
  evolves w w' evs ds →
  List.filter is_detect evs = replicate 13 (EvDetect g) →
  ds = duration_ms <$> seq (count_detect (trace w)) 13 →
  progress w0 w' (n + 13) g.
Proof.
  intros Hp [[c' Hh'] Ht' Hc' _ _] Hf ->.
  rewrite (progress_count _ _ _ _ Hp) in Hc'.
  destruct Hp as [[c Hh] (e & Ht & Hfe) Hc]. split.
  - exists (c ++ c'). by rewrite Hh', Hh, (assoc_L (++)).
  - exists (e ++ evs). rewrite Ht', Ht, (assoc_L (++)). split; [done|].
    by rewrite List.filter_app, Hf, Hfe, replicate_add.
  - rewrite Hc', Hc. unfold tick_all.
    by rewrite <- fold_left_app, <- fmap_app, <- seq_app.
Qed.


(** *** [main] *)

Lemma for_each_cons {A B} (x : B) xs (body : B → A → M A) a :
  for_each (x :: xs) body a = (a' ← body x a; for_each xs body a').
Proof. done. Qed.

Lemma for_each_nil {A B} (body : B → A → M A) a :
  for_each [] body a = mret a.
Proof. done. Qed.

Lemma calm_config_dump :
  calm (for_each configs (λ '(name, cfg) _,
    printf "\n{name.upper()}:" [VStr (upper name)];;
    for_each (config_items cfg) (λ '(key, value) _,
      printf "  {key}: {value}" [VStr key; value]) tt) tt).
Proof.
  apply calm_for_each. intros [name cfg].
  apply calm_seq; [apply calm_printf|].
  apply calm_for_each. intros [key value]. apply calm_printf.
Qed.

Ltac calm_solve :=
  first [ exact (calm_emit _)
        | exact calm_config_dump
        | apply calm_for_each; intros ?; exact (calm_emit _) ].

Ltac calm_go :=
  lazymatch goal with
  | Hp : progress ?w0 ?w ?n ?g |- context [(?m ≫= ?k) ?w] =>
      let w1 := fresh "w" in
      let evs := fresh "evs" in
      let Hc := fresh "Hc" in
      let Hrun := fresh "Hrun" in
      let Hev := fresh "Hev" in
      let Hs := fresh "Hs" in
      assert (Hc : calm m) by calm_solve;
      destruct (calm_step m k w Hc) as (w1 & evs & Hrun & Hev & Hs);
      rewrite Hrun; cbv beta;
      apply (progress_calm _ _ _ _ _ _ Hp Hev) in Hs;
      clear Hp Hev Hrun Hc; rename Hs into Hp
  end.

Lemma bind_ret {A B} (a : A) (k : A → M B) w : (mret a ≫= k) w = k a w.
Proof. done. Qed.

Lemma list_index_ok {A} (l : list A) i a w :
  l !! i = Some a → list_index l i w = (w, Ok a).
Proof. intros H. unfold list_index. by rewrite H. Qed.

Lemma seq_13 k :
  (duration_ms <$> seq k 3) ++ (duration_ms <$> seq (k + 3) 10)
  = duration_ms <$> seq k 13.
Proof. by rewrite <- fmap_app, <- (seq_app 3 10). Qed.

(** One preset of the benchmark loop. *)
Lemma bench_step {B} w0 w n g frame fimg config_name cfg
    (k : BenchResult → M B) :
  progress w0 w n g →
  heap w0 !! frame = Some fimg →
  g = cvtColor fimg COLOR_BGR2GRAY →
  dict_get configs config_name = Ok cfg →
  (∀ dictionary parameters image,
     well_formed (detectMarkers image dictionary parameters)) →
  ∃ w' r,
    (test_configuration frame config_name ≫= k) w = k r w' ∧
    progress w0 w' (n + 13) g ∧
    time_ms r
    = (let j := count_detect (trace w0) + n in
       let t0 := tick_all (clock w) (duration_ms <$> seq j 3) in
       let t1 := tick_all t0 (duration_ms <$> seq (j + 3) 10) in
       ((t1 - t0) / inject_Z 10 * 1000)%Q).
Proof.
  intros Hp Hframe -> Hcfg Hwf.
  pose proof (test_configuration_spec w frame fimg config_name cfg
                (progress_lookup _ _ _ _ _ _ Hp Hframe) Hcfg Hwf) as H.
  cbv zeta in H.
  destruct H as (w' & dictionary & parameters & v & w_prev & w_last
                 & _ & _ & Hrun & Hev & _).
  rewrite seq_13 in Hev.
  eexists w', _. split_and!.
  - by rewrite (bind_ok _ _ _ _ _ Hrun).
  - by eapply progress_bench.
  - simpl. by rewrite (progress_count _ _ _ _ Hp).
Qed.

Ltac bench_go Hframe Hwf r Hr :=
  lazymatch goal with
  | Hp : progress ?w0 ?w ?n ?g
    |- context [(test_configuration ?frame ?name ≫= ?k) ?w] =>
      let w1 := fresh "w" in
      let Hrun := fresh "Hrun" in
      let Hp' := fresh "Hp" in
      destruct (bench_step w0 w n g frame _ name _ k Hp Hframe eq_refl
                  eq_refl Hwf) as (w1 & r & Hrun & Hp' & Hr);
      rewrite Hrun; cbv beta; clear Hrun;
      rewrite (pr_clock _ _ _ _ Hp) in Hr; clear Hp; rename Hp' into Hp
  end.

Ltac preset_go Hframe Hwf r Hr :=
  rewrite for_each_cons; cbv beta; rewrite ?bind_assoc;
  calm_go; rewrite ?bind_assoc;
  bench_go Hframe Hwf r Hr; rewrite ?bind_assoc;
  calm_go; rewrite bind_ret; cbv beta.

Lemma main_with_frame_spec w frame fimg :
  heap w !! frame = Some fimg →
  (∀ dictionary parameters image,
     well_formed (detectMarkers image dictionary parameters)) →
  let g := cvtColor fimg COLOR_BGR2GRAY in
  let k := count_detect (trace w) in
  let t0 := tick_all (clock w) (duration_ms <$> seq k 3) in
  let t1 := tick_all t0 (duration_ms <$> seq (k + 3) 10) in
  let original_time := ((t1 - t0) / inject_Z 10 * 1000)%Q in
  ∃ w',
    main_with_frame frame w
      = (w', if Qeq_bool original_time 0
             then Raise ZeroDivisionError else Ok tt) ∧
    progress w w' 39 g.
Proof.
  intros Hframe Hwf g k t0 t1 original_time.
  pose proof (progress_refl w g) as Hp.
  unfold main_with_frame.
  repeat calm_go.
  preset_go Hframe Hwf r0 Hr0.
  preset_go Hframe Hwf r1 Hr1.
  preset_go Hframe Hwf r2 Hr2.
  clear Hr1 Hr2. rewrite for_each_nil, bind_ret. cbn [app].
  repeat calm_go.
  rewrite (bind_ok _ _ _ _ _ (list_index_ok [r0; r1; r2] 0 r0 _ eq_refl)).
  cbv beta. cbn [drop].
  assert (Hot : time_ms r0 = original_time).
  { rewrite Hr0. cbv zeta. by rewrite Nat.add_0_r. }
  rewrite Hot. clear Hr0 Hot.
  destruct (Qeq_bool original_time 0) eqn:Hz.
  - rewrite for_each_cons; cbv beta; rewrite ?bind_assoc.
    lazymatch goal with
    | Hp : progress _ ?wc _ _ |- _ =>
        rewrite (bind_raise _ _ wc wc ZeroDivisionError);
        [by exists wc|unfold lift, truediv; by rewrite Hz]
    end.
  - assert (Hdiv : ∀ a w1, lift (truediv a original_time) w1
                           = (w1, Ok (a / original_time)%Q))
      by (intros; unfold lift, truediv; by rewrite Hz).
    do 2 (rewrite for_each_cons; cbv beta; rewrite ?bind_assoc;
          rewrite (bind_ok _ _ _ _ _ (Hdiv _ _)); cbv beta;
          rewrite ?bind_assoc; calm_go; rewrite ?bind_assoc;
          rewrite (bind_ok _ _ _ _ _
                     (list_index_ok [r0; r1; r2] 0 r0 _ eq_refl));
          cbv beta; rewrite ?bind_assoc;
          do 3 (calm_go; rewrite ?bind_assoc)).
    rewrite for_each_nil, bind_ret.
    repeat calm_go.
    match goal with
    | |- ∃ w', print ?s ?w = _ ∧ _ =>
        destruct (calm_print s w) as (w' & evs' & Hrun & Hev & Hs)
    end.
    exists w'. split; [exact Hrun|].
    apply (progress_calm _ _ _ _ _ _ Hp Hev Hs).
Qed.

Lemma main_not_opened w :
  cam_opened w = false →
  main w
  = main_with_frame (length (heap w))
      (mk_World (heap w ++ [randint 0 255 [480; 640; 3]%Z]) (clock w)
         (trace w ++ header ++
          [EvPrint (mk_printed "Error: Could not open camera" [] None);
           EvPrint (mk_printed "Using test image instead..." [] None)])
         (cam_opened w) (cam_frame w) (cam_released w)).
Proof.
  intros Hopened. destruct w as [h c tr o f r]. simpl in *. subst.
  unfold main, acquire_frame, cv2_VideoCapture, cap_isOpened,
    np_random_randint, alloc, print, emit, mbind, M_bind, mret, M_ret.
  simpl.
  unfold set_heap, set_trace, header. simpl.
  rewrite <- !(assoc_L (++)). reflexivity.
Qed.

Lemma main_frame_read w img :
  cam_opened w = true → cam_frame w = Some img →
  main w
  = main_with_frame (length (heap w))
      (mk_World (heap w ++ [img]) (clock w)
         (trace w ++ header ++
          [EvPrint (mk_printed "Using camera frame: {frame.shape}"
                      [VShape (shape img)] None)])
         (cam_opened w) (cam_frame w) true).
Proof.
  intros Hopened Hframe. destruct w as [h c tr o f r]. simpl in *. subst.
  unfold main, acquire_frame, cv2_VideoCapture, cap_isOpened, cap_read,
    cap_release, load, alloc, printf, print, emit, mbind, M_bind, mret, M_ret.
  simpl. rewrite lookup_fresh. simpl.
  unfold set_heap, set_trace, header. simpl.
  rewrite <- !(assoc_L (++)). reflexivity.
Qed.

Lemma main_read_failed w :
  cam_opened w = true → cam_frame w = None →
  main w
  = (set_trace
       (trace w ++ header ++
        [EvPrint (mk_printed "Error: Could not read frame" [] None)]) w,
     Ok tt).
Proof.
  intros Hopened Hframe. destruct w as [h c tr o f r]. simpl in *. subst.
  unfold main, acquire_frame, cv2_VideoCapture, cap_isOpened, cap_read,
    print, emit, mbind, M_bind, mret, M_ret.
  simpl.
  unfold set_trace, header. simpl.
  rewrite <- !(assoc_L (++)). reflexivity.
Qed.

Lemma main_with_frame_from w w1 frame fimg pre :
  heap w1 !! frame = Some fimg →
  trace w1 = trace w ++ pre →
  silent pre →
  clock w1 = clock w →
  (∀ dictionary parameters image,
     well_formed (detectMarkers image dictionary parameters)) →
  ∃ w' evs,
    main_with_frame frame w1
      = (w', if Qeq_bool (measured_ms w) 0
             then Raise ZeroDivisionError else Ok tt) ∧
    trace w' = trace w ++ pre ++ evs ∧
    List.filter is_detect evs
      = replicate 39 (EvDetect (cvtColor fimg COLOR_BGR2GRAY)).
Proof.
  intros Hframe Htrace Hpre Hclock Hwf.
  pose proof (main_with_frame_spec w1 frame fimg Hframe Hwf) as H.
  cbv zeta in H. destruct H as (w' & Hrun & Hp).
  assert (Hk : count_detect (trace w1) = count_detect (trace w)).
  { rewrite Htrace, count_detect_app. unfold count_detect at 2.
    rewrite Hpre. simpl. lia. }
  rewrite Hk, Hclock in Hrun.
  destruct (pr_trace _ _ _ _ Hp) as (evs & Hevs & Hf).
  exists w', evs. split_and!; [exact Hrun| |exact Hf].
  by rewrite Hevs, Htrace, (assoc_L (++)).
Qed.


Ltac enter_benchmark w Hwf w' evs Hrun Htr Hf :=
  lazymatch goal with
  | |- context [main_with_frame ?frame ?w1] =>
      destruct (main_with_frame_from w w1 frame _ _ (lookup_fresh _ _)
                  eq_refl eq_refl eq_refl Hwf)
        as (w' & evs & Hrun & Htr & Hf)
  end.

(** C7. The two camera conditions of [main]. If the camera cannot be
    opened, two messages are printed, the synthetic noise frame is
    substituted and the benchmark runs: all 39 calls of [detect_markers]
    (13 per preset) are made on the grayscale of the noise frame. If the
    camera opens but no frame can be read, [main] prints the message and
    returns: nothing else is printed and no detection is run. Otherwise
    the benchmark runs on the frame read from the camera. *)
Theorem main_camera_conditions w :
  (∀ dictionary parameters image,
     well_formed (detectMarkers image dictionary parameters)) →
  (cam_opened w = false →
   ∃ w' r evs,
     main w = (w', r) ∧
     (r = Ok tt ∨ r = Raise ZeroDivisionError) ∧
     trace w'
     = trace w ++
       (header ++
        [EvPrint (mk_printed "Error: Could not open camera" [] None);
         EvPrint (mk_printed "Using test image instead..." [] None)]) ++
       evs ∧
     List.filter is_detect evs
     = replicate 39
         (EvDetect (cvtColor (randint 0 255 [480; 640; 3]%Z) COLOR_BGR2GRAY))) ∧
  (cam_opened w = true → cam_frame w = None →
   main w
   = (set_trace
        (trace w ++ header ++
         [EvPrint (mk_printed "Error: Could not read frame" [] None)]) w,
      Ok tt)) ∧
  (∀ img, cam_opened w = true → cam_frame w = Some img →
   ∃ w' r evs,
     main w = (w', r) ∧
     (r = Ok tt ∨ r = Raise ZeroDivisionError) ∧
     trace w'
     = trace w ++
       (header ++
        [EvPrint (mk_printed "Using camera frame: {frame.shape}"
                    [VShape (shape img)] None)]) ++
       evs ∧
     List.filter is_detect evs
     = replicate 39 (EvDetect (cvtColor img COLOR_BGR2GRAY))).
Proof.
  intros Hwf. split_and!.
  - intros Hopened. rewrite (main_not_opened w Hopened).
    enter_benchmark w Hwf w' evs Hrun Htr Hf.
    eexists w', _, evs. split_and!; [exact Hrun| |exact Htr|exact Hf].
    destruct (Qeq_bool _ _); auto.
  - apply main_read_failed.
  - intros img Hopened Hframe. rewrite (main_frame_read w img Hopened Hframe).
    enter_benchmark w Hwf w' evs Hrun Htr Hf.
    eexists w', _, evs. split_and!; [exact Hrun| |exact Htr|exact Hf].
    destruct (Qeq_bool _ _); auto.
Qed.


(** *** Further properties *)

(** X1. A preset name other than the three defined ones makes
    [setup_detector] raise [KeyError], and [test_configuration] lets the
    exception through. *)
Theorem unknown_preset_raises_KeyError w frame fimg config_name :
  config_name ∉ ["original"; "optimized"; "maximum"] →
  heap w !! frame = Some fimg →
  setup_detector config_name = Raise (KeyError config_name) ∧
  snd (test_configuration frame config_name w) = Raise (KeyError config_name).
Proof.
  intros Hname Hframe.
  assert (Hget : dict_get configs config_name = Raise (KeyError config_name)).
  { unfold configs. cbn [dict_get].
    destruct (String.eqb_spec "original" config_name) as [<-|_]; [set_solver|].
    destruct (String.eqb_spec "optimized" config_name) as [<-|_]; [set_solver|].
    destruct (String.eqb_spec "maximum" config_name) as [<-|_]; [set_solver|].
    done. }
  assert (Hsetup : setup_detector config_name = Raise (KeyError config_name))
    by (unfold setup_detector; by rewrite Hget).
  split; [exact Hsetup|].
  assert (Hcvt : cv2_cvtColor frame COLOR_BGR2GRAY w
                 = (set_heap (heap w ++ [cvtColor fimg COLOR_BGR2GRAY]) w,
                    Ok (length (heap w)))).
  { unfold cv2_cvtColor. by rewrite (bind_ok _ _ _ _ _ (load_ok _ _ _ Hframe)). }
  unfold test_configuration. rewrite (bind_ok _ _ _ _ _ Hcvt).
  erewrite bind_raise; [reflexivity|]. unfold lift. by rewrite Hsetup.
Qed.

(** X2. When the camera opens but no frame can be read, [main] returns
    without releasing the camera. *)
Theorem main_read_failure_leaves_camera_open w :
  cam_opened w = true → cam_frame w = None →
  snd (main w) = Ok tt ∧ cam_released (fst (main w)) = cam_released w.
Proof. intros Hopened Hframe. by rewrite (main_read_failed w Hopened Hframe). Qed.

(** *** The merge, in full *)

Lemma merge_inv_step st m c :
  merge_inv st → m ∉ all_ids st →
  merge_inv (mk_merge_state (all_corners st ++ [c]) (all_ids st ++ [m])
               ({[ m ]} ∪ seen_ids st)).
Proof.
  forget_unused.
  intros Hinv Hm. split; simpl.
  - by rewrite !length_app, (inv_length _ Hinv).
  - apply NoDup_app. split_and!; [by apply Hinv| |apply NoDup_singleton].
    intros x Hx ?. set_solver.
  - intros id. rewrite elem_of_union, elem_of_singleton, (inv_seen _ Hinv).
    set_solver.
Qed.

Lemma merge_loop_outcome ids : ∀ corners i st,
  merge_inv st →
  match merge_loop corners i ids st with
  | Ok st' =>
      merge_inv st' ∧
      all_ids st' = all_ids st ++ first_occurrences (all_ids st) ids
  | Raise e => e = IndexError
  end.
Proof.
  forget_unused.
  induction ids as [|m rest IH]; intros corners i st Hinv; simpl.
  - by rewrite (right_id_L [] (++)).
  - destruct (decide (m ∈ seen_ids st)) as [Hseen|Hseen].
    + rewrite decide_True by (by apply (inv_seen _ Hinv)). by apply IH.
    + assert (Hm : m ∉ all_ids st) by (by rewrite <- (inv_seen _ Hinv)).
      rewrite decide_False by done.
      destruct (corners !! i) as [c|]; [|done].
      pose proof (IH corners (S i) _ (merge_inv_step st m c Hinv Hm)) as H.
      destruct (merge_loop corners (S i) rest _) as [st'|e]; [|done].
      destruct H as [Hinv' Hids]. split; [done|].
      rewrite Hids. simpl. by rewrite <- (assoc_L (++)).
Qed.

Lemma merge_pass_outcome corners ids st :
  merge_inv st →
  match merge_pass corners ids st with
  | Ok st' =>
      merge_inv st' ∧
      all_ids st' = all_ids st ++ first_occurrences (all_ids st) (ids_list ids)
  | Raise e => e = IndexError
  end.
Proof.
  forget_unused.
  intros Hinv. destruct ids as [l|]; simpl.
  - by apply merge_loop_outcome.
  - by rewrite (right_id_L [] (++)).
Qed.

Lemma first_occurrences_app a : ∀ seen b,
  first_occurrences seen (a ++ b)
  = first_occurrences seen a
    ++ first_occurrences (seen ++ first_occurrences seen a) b.
Proof.
  forget_unused.
  induction a as [|i a IH]; intros seen b; simpl.
  - by rewrite (right_id_L [] (++)).
  - destruct (decide (i ∈ seen)); [by apply IH|].
    rewrite IH. simpl. by rewrite <- (assoc_L (++)).
Qed.

Lemma merged_output_view st :
  merge_inv st →
  fst (merged_output st) = all_corners st ∧
  ids_list (snd (merged_output st)) = all_ids st.
Proof.
  forget_unused.
  intros Hinv. unfold merged_output.
  pose proof (inv_length _ Hinv) as Hlen.
  destruct (all_ids st) as [|i l]; simpl in *; [|done].
  by destruct (all_corners st).
Qed.

Lemma detect_markers_multi_run w gray img dictionary parameters config
    cs1 ids1 rej1 t otsu cs2 ids2 rej2 :
  heap w !! gray = Some img →
  use_multi_threshold config = true →
  detectMarkers (preprocessed img config) dictionary parameters
    = (cs1, ids1, rej1) →
  threshold (preprocessed img config) 0%Q 255%Q (THRESH_BINARY + THRESH_OTSU)%Z
    = (t, otsu) →
  detectMarkers otsu dictionary parameters = (cs2, ids2, rej2) →
  ∃ w',
    detect_markers gray dictionary parameters config w
    = (w', st1 ← merge_pass cs1 ids1 (mk_merge_state [] [] ∅);
           st2 ← merge_pass cs2 ids2 st1;
           Ok (merged_output st2)).
Proof.
  forget_unused.
  intros Hgray Hmulti H1 Hotsu H2.
  destruct (detect_markers_value w gray img dictionary parameters config Hgray)
    as (cells & Hrun).
  eexists. rewrite Hrun. f_equal.
  unfold detect_value. rewrite Hmulti, H1. simpl.
  destruct (merge_pass cs1 ids1 _) as [st1|e]; [|done]. simpl.
  rewrite Hotsu, H2. simpl.
  destruct (merge_pass cs2 ids2 st1) as [st2|e]; [|done]. simpl.
  unfold merged_output. by destruct (0 <? length (all_ids st2)).
Qed.

(** The two passes of a run of the multi-threshold branch, under the
    library's contract. *)
Lemma detect_markers_multi_spec w gray img dictionary parameters config
    cs1 ids1 rej1 t otsu cs2 ids2 rej2 :
  heap w !! gray = Some img →
  use_multi_threshold config = true →
  (∀ image, well_formed (detectMarkers image dictionary parameters)) →
  detectMarkers (preprocessed img config) dictionary parameters
    = (cs1, ids1, rej1) →
  threshold (preprocessed img config) 0%Q 255%Q (THRESH_BINARY + THRESH_OTSU)%Z
    = (t, otsu) →
  detectMarkers otsu dictionary parameters = (cs2, ids2, rej2) →
  ∃ w' corners ids,
    detect_markers gray dictionary parameters config w
      = (w', Ok (corners, ids)) ∧
    ids_list ids
      = first_occurrences [] (ids_list ids1 ++ ids_list ids2) ∧
    (∀ id, id ∈ ids_list ids ↔ id ∈ ids_list ids1 ∨ id ∈ ids_list ids2) ∧
    (∀ id, id ∈ ids_list ids1 →
           corners_of id (ids_list ids) corners
           = corners_of id (ids_list ids1) cs1) ∧
    (∀ id, id ∉ ids_list ids1 →
           corners_of id (ids_list ids) corners
           = corners_of id (ids_list ids2) cs2).
Proof.
  forget_unused.
  intros Hgray Hmulti Hwf H1 Hotsu H2.
  destruct (detect_markers_multi_run w gray img dictionary parameters config
              cs1 ids1 rej1 t otsu cs2 ids2 rej2 Hgray Hmulti H1 Hotsu H2)
    as (w' & Hrun).
  pose proof (Hwf (preprocessed img config)) as Hwf1. rewrite H1 in Hwf1.
  pose proof (Hwf otsu) as Hwf2. rewrite H2 in Hwf2.
  destruct (merge_pass_spec cs1 ids1 rej1 _ Hwf1 merge_inv_empty)
    as (st1 & Hst1 & Hinv1 & _ & Hnew1 & Hin1).
  destruct (merge_pass_spec cs2 ids2 rej2 _ Hwf2 Hinv1)
    as (st2 & Hst2 & Hinv2 & Hold2 & Hnew2 & Hin2).
  pose proof (merge_pass_outcome cs1 ids1 _ merge_inv_empty) as Ho1.
  rewrite Hst1 in Ho1. destruct Ho1 as [_ Hids1]. simpl in Hids1.
  pose proof (merge_pass_outcome cs2 ids2 _ Hinv1) as Ho2.
  rewrite Hst2 in Ho2. destruct Ho2 as [_ Hids2].
  rewrite Hst1 in Hrun. simpl in Hrun. rewrite Hst2 in Hrun. simpl in Hrun.
  destruct (merged_output_view st2 Hinv2) as [Hcs Hids].
  destruct (merged_output st2) as [corners ids]. simpl in Hcs, Hids. subst corners.
  exists w', (all_corners st2), ids. rewrite Hids. split_and!.
  - exact Hrun.
  - rewrite Hids2, Hids1, first_occurrences_app. done.
  - intros id. rewrite Hin2, Hin1. simpl. set_solver.
  - intros id Hid. rewrite Hold2 by (apply Hin1; by right).
    apply Hnew1. simpl. set_solver.
  - intros id Hid. apply Hnew2. rewrite Hin1. simpl. set_solver.
Qed.

(** X3. Multi-threshold merge: the identifiers returned are exactly those
    of the adaptive pass together with those of the Otsu pass. *)
Theorem detect_markers_ids_union w gray img dictionary parameters config
    cs1 ids1 rej1 t otsu cs2 ids2 rej2 :
  heap w !! gray = Some img →
  use_multi_threshold config = true →
  (∀ image, well_formed (detectMarkers image dictionary parameters)) →
  detectMarkers (preprocessed img config) dictionary parameters
    = (cs1, ids1, rej1) →
  threshold (preprocessed img config) 0%Q 255%Q (THRESH_BINARY + THRESH_OTSU)%Z
    = (t, otsu) →
  detectMarkers otsu dictionary parameters = (cs2, ids2, rej2) →
  ∃ w' corners ids,
    detect_markers gray dictionary parameters config w
      = (w', Ok (corners, ids)) ∧
    ∀ id, id ∈ ids_list ids ↔ id ∈ ids_list ids1 ∨ id ∈ ids_list ids2.
Proof.
  forget_unused.
  intros Hgray Hmulti Hwf H1 Hotsu H2.
  destruct (detect_markers_multi_spec w gray img dictionary parameters config
              cs1 ids1 rej1 t otsu cs2 ids2 rej2 Hgray Hmulti Hwf H1 Hotsu H2)
    as (w' & corners & ids & Hrun & _ & Hunion & _). eauto.
Qed.

(** X4. Multi-threshold merge: an identifier that only the Otsu pass
    detected is returned with the corner-set the Otsu pass gave to its
    first occurrence. *)
Theorem detect_markers_otsu_only w gray img dictionary parameters config
    cs1 ids1 rej1 t otsu cs2 ids2 rej2 marker_id :
  heap w !! gray = Some img →
  use_multi_threshold config = true →
  (∀ image, well_formed (detectMarkers image dictionary parameters)) →
  detectMarkers (preprocessed img config) dictionary parameters
    = (cs1, ids1, rej1) →
  threshold (preprocessed img config) 0%Q 255%Q (THRESH_BINARY + THRESH_OTSU)%Z
    = (t, otsu) →
  detectMarkers otsu dictionary parameters = (cs2, ids2, rej2) →
  marker_id ∉ ids_list ids1 →
  marker_id ∈ ids_list ids2 →
  ∃ w' corners ids c,
    detect_markers gray dictionary parameters config w
      = (w', Ok (corners, Some ids)) ∧
    marker_id ∈ ids ∧
    corners_of marker_id ids corners = Some c ∧
    corners_of marker_id (ids_list ids2) cs2 = Some c.
Proof.
  forget_unused.
  intros Hgray Hmulti Hwf H1 Hotsu H2 Hnot Hin.
  destruct (detect_markers_multi_spec w gray img dictionary parameters config
              cs1 ids1 rej1 t otsu cs2 ids2 rej2 Hgray Hmulti Hwf H1 Hotsu H2)
    as (w' & corners & ids & Hrun & _ & Hunion & _ & Hotsu_cs).
  assert (Hmem : marker_id ∈ ids_list ids) by (apply Hunion; by right).
  destruct ids as [l|]; [|by apply elem_of_nil in Hmem]. simpl in *.
  assert (Hsome : is_Some (corners_of marker_id (ids_list ids2) cs2)).
  { pose proof (Hwf otsu) as Hwf2. rewrite H2 in Hwf2.
    destruct ids2 as [l2|]; [|by apply elem_of_nil in Hin]. simpl in *.
    clear -Hin Hwf2. revert cs2 Hwf2.
    induction l2 as [|i l2 IH]; intros [|c cs2] Hlen; simpl in *;
      try done; [by apply elem_of_nil in Hin|].
    case_decide; [eauto|]. apply IH; [set_solver|lia]. }
  destruct Hsome as [c Hc].
  exists w', corners, l, c. split_and!; try done.
  by rewrite (Hotsu_cs _ Hnot).
Qed.

(** X5. Multi-threshold merge: the identifiers are returned in the order
    of their first occurrence, the adaptive pass before the Otsu pass. *)
Theorem detect_markers_ids_order w gray img dictionary parameters config
    cs1 ids1 rej1 t otsu cs2 ids2 rej2 :
  heap w !! gray = Some img →
  use_multi_threshold config = true →
  (∀ image, well_formed (detectMarkers image dictionary parameters)) →
  detectMarkers (preprocessed img config) dictionary parameters
    = (cs1, ids1, rej1) →
  threshold (preprocessed img config) 0%Q 255%Q (THRESH_BINARY + THRESH_OTSU)%Z
    = (t, otsu) →
  detectMarkers otsu dictionary parameters = (cs2, ids2, rej2) →
  ∃ w' corners ids,
    detect_markers gray dictionary parameters config w
      = (w', Ok (corners, ids)) ∧
    ids_list ids = first_occurrences [] (ids_list ids1 ++ ids_list ids2).
Proof.
  forget_unused.
  intros Hgray Hmulti Hwf H1 Hotsu H2.
  destruct (detect_markers_multi_spec w gray img dictionary parameters config
              cs1 ids1 rej1 t otsu cs2 ids2 rej2 Hgray Hmulti Hwf H1 Hotsu H2)
    as (w' & corners & ids & Hrun & Horder & _). eauto.
Qed.

(** X6. Multi-threshold merge: when neither pass reports an identifier
    ([None] or an empty array), the result is the empty tuple and [None],
    whatever corners the library returned. *)
Theorem detect_markers_nothing_found w gray img dictionary parameters config
    cs1 ids1 rej1 t otsu cs2 ids2 rej2 :
  heap w !! gray = Some img →
  use_multi_threshold config = true →
  detectMarkers (preprocessed img config) dictionary parameters
    = (cs1, ids1, rej1) →
  threshold (preprocessed img config) 0%Q 255%Q (THRESH_BINARY + THRESH_OTSU)%Z
    = (t, otsu) →
  detectMarkers otsu dictionary parameters = (cs2, ids2, rej2) →
  ids_list ids1 = [] →
  ids_list ids2 = [] →
  ∃ w', detect_markers gray dictionary parameters config w = (w', Ok ([], None)).
Proof.
  forget_unused.
  intros Hgray Hmulti H1 Hotsu H2 He1 He2.
  destruct (detect_markers_multi_run w gray img dictionary parameters config
              cs1 ids1 rej1 t otsu cs2 ids2 rej2 Hgray Hmulti H1 Hotsu H2)
    as (w' & Hrun).
  exists w'. rewrite Hrun. f_equal.
  destruct ids1 as [l1|], ids2 as [l2|]; simpl in *; subst; reflexivity.
Qed.

(** X7. Multi-threshold merge, whatever results the two passes return,
    matching in length or not: a result that [detect_markers] returns has
    pairwise distinct identifiers and as many corner-sets; and when the
    adaptive pass reports an identifier and no corner-set at all, the call
    raises [IndexError]. *)
Theorem detect_markers_multi_outcome w gray img dictionary parameters config :
  heap w !! gray = Some img →
  use_multi_threshold config = true →
  (∀ corners ids,
     snd (detect_markers gray dictionary parameters config w)
     = Ok (corners, ids) →
     NoDup (ids_list ids) ∧ length corners = length (ids_list ids)) ∧
  (∀ marker_id rest rej,
     detectMarkers (preprocessed img config) dictionary parameters
       = ([], Some (marker_id :: rest), rej) →
     snd (detect_markers gray dictionary parameters config w)
     = Raise IndexError).
Proof.
  forget_unused.
  intros Hgray Hmulti.
  destruct (detectMarkers (preprocessed img config) dictionary parameters)
    as [[cs1 ids1] rej1] eqn:H1.
  destruct (threshold (preprocessed img config) 0%Q 255%Q
              (THRESH_BINARY + THRESH_OTSU)%Z) as [t otsu] eqn:Hotsu.
  destruct (detectMarkers otsu dictionary parameters)
    as [[cs2 ids2] rej2] eqn:H2.
  destruct (detect_markers_multi_run w gray img dictionary parameters config
              cs1 ids1 rej1 t otsu cs2 ids2 rej2 Hgray Hmulti H1 Hotsu H2)
    as (w' & Hrun).
  rewrite Hrun. simpl snd. split.
  - intros corners ids.
    pose proof (merge_pass_outcome cs1 ids1 _ merge_inv_empty) as Ho1.
    destruct (merge_pass cs1 ids1 _) as [st1|e]; [|done]. simpl.
    destruct Ho1 as [Hinv1 _].
    pose proof (merge_pass_outcome cs2 ids2 _ Hinv1) as Ho2.
    destruct (merge_pass cs2 ids2 st1) as [st2|e]; [|done]. simpl.
    destruct Ho2 as [Hinv2 _].
    destruct (merged_output_view st2 Hinv2) as [Hcs Hids].
    intros Hout. injection Hout as Hout. rewrite Hout in Hcs, Hids.
    simpl in Hcs, Hids.
    rewrite Hids, Hcs. split; [apply Hinv2|symmetry; apply Hinv2].
  - intros marker_id rest rej Heq. by simplify_eq.
Qed.

(** *** Exceptions and the frame rate in [test_configuration] *)

Lemma call_detect_markers_raise w gray g dictionary parameters config e :
  heap w !! gray = Some g →
  detect_value g dictionary parameters config = Raise e →
  ∃ w',
    call_detect_markers gray dictionary parameters config w = (w', Raise e) ∧
    trace w' = trace w ++ [EvDetect g] ∧
    clock w' = clock w.
Proof.
  forget_unused.
  intros Hgray Hv. unfold call_detect_markers.
  rewrite (bind_ok _ _ _ _ _ (load_ok _ _ _ Hgray)).
  unfold mbind at 1, M_bind at 1.
  unfold mbind at 1, M_bind at 1, emit at 1.
  set (w1 := set_trace (trace w ++ [EvDetect g]) w).
  destruct (detect_markers_value w1 gray g dictionary parameters config Hgray)
    as (cells & Hrun).
  rewrite Hv in Hrun. rewrite (bind_raise _ _ _ _ _ Hrun).
  eexists. split; [reflexivity|]. done.
Qed.

(** X8. No handler in [test_configuration]: when [detect_markers] raises
    on the grayscale image, [test_configuration] ends with the same
    exception in its first warm-up call, before any clock reading. *)
Theorem test_configuration_propagates
    w frame fimg config_name cfg dictionary parameters w0 gray0 e :
  heap w !! frame = Some fimg →
  setup_detector config_name = Ok (dictionary, parameters, cfg) →
  heap w0 !! gray0 = Some (cvtColor fimg COLOR_BGR2GRAY) →
  snd (detect_markers gray0 dictionary parameters cfg w0) = Raise e →
  ∃ w',
    test_configuration frame config_name w = (w', Raise e) ∧
    trace w' = trace w ++ [EvDetect (cvtColor fimg COLOR_BGR2GRAY)] ∧
    clock w' = clock w.
Proof.
  forget_unused.
  intros Hframe Hsetup Hgray0 Hraise.
  set (g := cvtColor fimg COLOR_BGR2GRAY) in *.
  assert (Hv : detect_value g dictionary parameters cfg = Raise e).
  { destruct (detect_markers_value w0 gray0 g dictionary parameters cfg Hgray0)
      as (cells & Hrun). by rewrite Hrun in Hraise. }
  set (wa := set_heap (heap w ++ [g]) w).
  assert (Hcvt : cv2_cvtColor frame COLOR_BGR2GRAY w = (wa, Ok (length (heap w)))).
  { unfold cv2_cvtColor. by rewrite (bind_ok _ _ _ _ _ (load_ok _ _ _ Hframe)). }
  assert (Hgray : heap wa !! length (heap w) = Some g) by apply lookup_fresh.
  destruct (call_detect_markers_raise wa (length (heap w)) g dictionary
              parameters cfg e Hgray Hv) as (w' & Hcall & Htrace & Hclock).
  exists w'. split; [|done].
  unfold test_configuration. rewrite (bind_ok _ _ _ _ _ Hcvt).
  assert (Hlift : lift (setup_detector config_name) wa
                  = (wa, Ok (dictionary, parameters, cfg)))
    by (unfold lift; by rewrite Hsetup).
  rewrite (bind_ok _ _ _ _ _ Hlift).
  erewrite bind_raise; [reflexivity|].
  simpl for_range.
  erewrite bind_raise; [reflexivity|].
  by erewrite bind_raise.
Qed.

Lemma nearest_even_nonneg n d :
  (0 <= n)%Z → (0 < d)%Z → (0 <= nearest_even n d)%Z.
Proof.
  forget_unused.
  intros Hn Hd. unfold nearest_even.
  pose proof (Z.div_pos n d Hn Hd).
  destruct (2 * (n mod d) ?= d)%Z; [destruct (Z.even (n / d))|..]; lia.
Qed.

Lemma scaled_nonneg n d e a b :
  (0 <= n)%Z → (0 < d)%Z → scaled n d e = (a, b) → (0 <= a)%Z ∧ (0 < b)%Z.
Proof.
  forget_unused.
  intros Hn Hd. unfold scaled.
  destruct (0 <=? e)%Z eqn:He; intros [= <- <-].
  - apply Z.leb_le in He. pose proof (Z.pow_pos_nonneg 2 e). nia.
  - pose proof (Z.pow_nonneg 2 (- e)). nia.
Qed.

(** Rounding to a double keeps the sign. *)
Lemma binary64_nonneg q : (0 <= q)%Q → (0 <= binary64 q)%Q.
Proof.
  forget_unused.
  destruct q as [n d]. unfold Qle. simpl. intros Hn.
  assert (Hn' : (0 <= n)%Z) by lia.
  unfold binary64. cbn [Qnum Qden].
  destruct (Z.abs n =? 0)%Z; [done|].
  destruct (scaled (Z.abs n) (Z.pos d) (Z.log2 (Z.abs n) - Z.log2 (Z.pos d)))
    as [a0 b0].
  set (e := Z.max _ _).
  destruct (scaled (Z.abs n) (Z.pos d) e) as [a b] eqn:Hs.
  apply scaled_nonneg in Hs as [Ha Hb]; [|lia..].
  pose proof (nearest_even_nonneg a b Ha Hb) as Hm.
  assert (Hsgn : (0 <= Z.sgn n * nearest_even a b)%Z).
  { pose proof (Z.sgn_nonneg n). nia. }
  destruct (0 <=? e)%Z; simpl.
  - pose proof (Z.pow_nonneg 2 e). nia.
  - lia.
Qed.

(** X9. In floats, under any rounding that keeps the sign (as that of
    doubles does), the reported frame rate is never negative, whatever
    the clock did: it is 0 unless the reported time is positive. *)
Theorem test_configuration_fps rnd w frame fimg config_name :
  (∀ q, (0 <= q)%Q → (0 <= rnd q)%Q) →
  heap w !! frame = Some fimg →
  config_name ∈ ["original"; "optimized"; "maximum"] →
  (∀ dictionary parameters image,
     well_formed (detectMarkers image dictionary parameters)) →
  ∃ w' r,
    test_configuration_float rnd frame config_name w = (w', Ok r) ∧
    (0 <= fps r)%Q ∧
    ((time_ms r <= 0)%Q → fps r = 0%Q).
Proof.
  forget_unused.
  intros Hrnd Hframe Hname Hwf.
  destruct (preset_lookup config_name Hname) as (cfg & Hcfg).
  destruct (test_configuration_float_spec rnd w frame fimg config_name cfg
              Hframe Hcfg Hwf)
    as (w' & v & Hrun & _).
  eexists w', _. split; [exact Hrun|]. cbn [fps time_ms].
  set (elapsed := rnd (rnd (rnd _ / inject_Z 10) * 1000)%Q).
  unfold Qgt_bool.
  destruct (Qle_bool elapsed 0) eqn:Hle; simpl.
  - split; [apply Qle_refl|done].
  - assert (Hpos : (0 < elapsed)%Q).
    { apply Qnot_le_lt. intros H. apply Qle_bool_iff in H. congruence. }
    split.
    + apply Hrnd. apply Qle_shift_div_l; [done|]. by rewrite Qmult_0_l.
    + intros H. exfalso. exact (Qlt_not_le _ _ Hpos H).
Qed.

(** *** What a computation leaves alone *)

#[local] Instance allocates_only_preorder : PreOrder allocates_only.
Proof.
  split.
  - intros w. by split.
  - intros w1 w2 w3 [] []. split; try congruence. by etrans.
Qed.

#[local] Instance appends_only_preorder : PreOrder appends_only.
Proof.
  split.
  - intros w. by split.
  - intros w1 w2 w3 [] []. split; try congruence; by etrans.
Qed.

Lemma allocates_appends w w' : allocates_only w w' → appends_only w w'.
Proof. intros []. split; try done. by rewrite ao_trace0. Qed.

Lemma respects_weaken {A} (m : M A) :
  respects allocates_only m → respects appends_only m.
Proof. intros H w. apply allocates_appends, H. Qed.

Lemma respects_bind {A B} R `{!PreOrder R} (m : M A) (k : A → M B) :
  respects R m → (∀ a, respects R (k a)) → respects R (m ≫= k).
Proof.
  intros Hm Hk w. unfold mbind, M_bind.
  pose proof (Hm w) as H1. destruct (m w) as [w1 [a|e]]; simpl in *.
  - etrans; [exact H1|]. apply Hk.
  - exact H1.
Qed.

Lemma respects_read {A} R `{!PreOrder R} (f : World → result A) :
  respects R (λ w, (w, f w)).
Proof. intros w. simpl. reflexivity. Qed.

Lemma respects_ret {A} R `{!PreOrder R} (a : A) : respects R (mret a).
Proof. apply (respects_read R (λ _, Ok a)). Qed.

Lemma respects_raise {A} R `{!PreOrder R} e : respects R (raise (A:=A) e).
Proof. apply (respects_read R (λ _, Raise e)). Qed.

Lemma respects_lift {A} R `{!PreOrder R} (r : result A) : respects R (lift r).
Proof. apply (respects_read R (λ _, r)). Qed.

Lemma respects_for_range {A} R `{!PreOrder R} n (body : A → M A) a :
  (∀ a, respects R (body a)) → respects R (for_range n body a).
Proof.
  intros Hbody. revert a. induction n as [|n IH]; intros a; simpl.
  - by apply respects_ret.
  - apply respects_bind; [done|apply Hbody|apply IH].
Qed.

Lemma respects_for_each {A B} R `{!PreOrder R} (xs : list B)
    (body : B → A → M A) a :
  (∀ x a, respects R (body x a)) → respects R (for_each xs body a).
Proof.
  intros Hbody. revert a. induction xs as [|x xs IH]; intros a; simpl.
  - by apply respects_ret.
  - apply respects_bind; [done|apply Hbody|apply IH].
Qed.

Lemma respects_load l : respects allocates_only (load l).
Proof. intros w. unfold load. by destruct (heap w !! l). Qed.

Lemma respects_alloc img : respects allocates_only (alloc img).
Proof. intros w. split; try done. simpl. by apply prefix_app_r. Qed.

Lemma respects_emit e : respects appends_only (emit e).
Proof. intros w. split; try done. simpl. by apply prefix_app_r. Qed.

Lemma respects_time_time : respects appends_only time_time.
Proof. intros w. split; try done. simpl. by apply prefix_app_r. Qed.

Lemma respects_advance seconds : respects appends_only (advance seconds).
Proof. intros w. by split. Qed.

(** Takes a computation apart, down to the operations above. *)
Ltac respects_step R :=
  cbv beta;
  lazymatch goal with
  | |- respects _ (_ ≫= _) => apply (respects_bind R); [|intros ?]
  | |- respects _ (mret _) => apply (respects_ret R)
  | |- respects _ (raise _) => apply (respects_raise R)
  | |- respects _ (lift _) => apply (respects_lift R)
  | |- respects _ (for_range _ _ _) => apply (respects_for_range R); intros ?
  | |- respects _ (for_each _ _ _) => apply (respects_for_each R); intros ? ?
  | |- respects allocates_only (load _) => apply respects_load
  | |- respects allocates_only (alloc _) => apply respects_alloc
  | |- respects appends_only (load _) => apply respects_weaken, respects_load
  | |- respects appends_only (alloc _) => apply respects_weaken, respects_alloc
  | |- respects appends_only (emit _) => apply respects_emit
  | |- respects appends_only time_time => apply respects_time_time
  | |- respects appends_only (advance _) => apply respects_advance
  | |- respects _ (match ?x with _ => _ end) => destruct x
  | |- respects _ ((match ?x with _ => _ end) _) => destruct x
  | |- respects _ (λ w, (w, _)) => apply (respects_read R (λ w, _))
  end.

Lemma detect_markers_respects gray dictionary parameters config :
  respects allocates_only (detect_markers gray dictionary parameters config).
Proof.
  unfold detect_markers, preprocess_image, ndarray_copy, clahe_apply,
    cv2_bilateralFilter, cv2_threshold, cv2_aruco_detectMarkers.
  repeat respects_step allocates_only.
Qed.

Lemma test_configuration_respects frame config_name :
  respects appends_only (test_configuration frame config_name).
Proof.
  unfold test_configuration, call_detect_markers, cv2_cvtColor.
  repeat first
    [ apply respects_weaken, detect_markers_respects
    | respects_step appends_only ].
Qed.

Lemma main_with_frame_respects frame :
  respects appends_only (main_with_frame frame).
Proof.
  unfold main_with_frame, print, printf, list_index.
  repeat first
    [ apply test_configuration_respects
    | respects_step appends_only ].
Qed.

(** X10. Whatever the library returns, and whether it returns or raises,
    [detect_markers] prints nothing, lets no time pass, leaves the camera
    alone and keeps every array of the store as it was: it only
    allocates. *)
Theorem detect_markers_only_allocates gray dictionary parameters config w :
  trace (fst (detect_markers gray dictionary parameters config w)) = trace w ∧
  clock (fst (detect_markers gray dictionary parameters config w)) = clock w ∧
  cam_released (fst (detect_markers gray dictionary parameters config w))
    = cam_released w ∧
  ∀ l img,
    heap w !! l = Some img →
    heap (fst (detect_markers gray dictionary parameters config w)) !! l
    = Some img.
Proof.
  destruct (detect_markers_respects gray dictionary parameters config w).
  split_and!; try done.
  intros l img Hl. by eapply prefix_lookup_Some.
Qed.

(** X11. [main] releases the camera exactly when it has read a frame
    from it: after a successful read the camera ends released, however
    the benchmark ends; a camera that could not be opened is left as it
    was. *)
Theorem main_camera_release w :
  (cam_opened w = false → cam_released (fst (main w)) = cam_released w) ∧
  (∀ img, cam_opened w = true → cam_frame w = Some img →
          cam_released (fst (main w)) = true).
Proof.
  split.
  - intros Hopened. rewrite (main_not_opened w Hopened).
    by rewrite (ap_released _ _ (main_with_frame_respects _ _)).
  - intros img Hopened Hframe. rewrite (main_frame_read w img Hopened Hframe).
    by rewrite (ap_released _ _ (main_with_frame_respects _ _)).
Qed.

(** *** The report of [main] *)

Lemma printed_with_app text evs1 evs2 :
  printed_with text (evs1 ++ evs2)
  = printed_with text evs1 ++ printed_with text evs2.
Proof. apply omap_app. Qed.

Lemma emit_exact {B} (m : M unit) e (k : unit → M B) w :
  m = emit e →
  ∃ w', (m ≫= k) w = k tt w' ∧ evolves w w' [e] [].
Proof.
  intros ->. eexists. split; [reflexivity|apply emit_evolves].
Qed.

Lemma evolves_count w w' evs ds :
  evolves w w' evs ds →
  count_detect (trace w') = count_detect (trace w) + count_detect evs.
Proof. intros H. by rewrite (ev_trace _ _ _ _ H), count_detect_app. Qed.

(** One preset of the benchmark loop, with what was measured. *)
Lemma bench_exact {B} w0 w evs ds frame fimg config_name cfg
    (k : BenchResult → M B) :
  evolves w0 w evs ds →
  heap w0 !! frame = Some fimg →
  dict_get configs config_name = Ok cfg →
  (∀ dictionary parameters image,
     well_formed (detectMarkers image dictionary parameters)) →
  ∃ w' r t0 t1,
    (test_configuration frame config_name ≫= k) w = k r w' ∧
    evolves w w'
      (replicate 3 (EvDetect (cvtColor fimg COLOR_BGR2GRAY)) ++ [EvTime t0] ++
       replicate 10 (EvDetect (cvtColor fimg COLOR_BGR2GRAY)) ++ [EvTime t1])
      (duration_ms <$> seq (count_detect (trace w)) 13) ∧
    config r = config_name ∧
    fps r = fps_of (time_ms r) ∧
    (time_ms r
     == Qsum (duration_ms <$> seq (count_detect (trace w) + 3) 10) / 10)%Q ∧
    benchmarked frame fimg config_name (count_detect (trace w)) r.
Proof.
  intros Hev Hframe Hcfg Hwf.
  pose proof (evolves_lookup _ _ _ _ _ _ Hev Hframe) as Hframe'.
  pose proof (test_configuration_spec w frame fimg config_name cfg
                Hframe' Hcfg Hwf) as H.
  cbv zeta in H.
  destruct H as (w' & dictionary & parameters & v & w_prev & w_last
                 & _ & _ & Hrun & Hev' & _).
  rewrite seq_13 in Hev'.
  eexists w', _, _, _. split_and!.
  - by rewrite (bind_ok _ _ _ _ _ Hrun).
  - exact Hev'.
  - reflexivity.
  - reflexivity.
  - apply elapsed_mean.
  - exists w, w'. exact (conj Hframe' (conj eq_refl Hrun)).
Qed.

Lemma emit_exact_last (m : M unit) e w :
  m = emit e →
  ∃ w', m w = (w', Ok tt) ∧ evolves w w' [e] [].
Proof.
  intros ->. eexists. split; [reflexivity|apply emit_evolves].
Qed.

Lemma list_index_head {A B} (a : A) l (k : A → M B) w :
  (list_index (a :: l) 0 ≫= k) w = k a w.
Proof. done. Qed.

Ltac report_norm :=
  repeat first
    [ rewrite bind_assoc
    | rewrite bind_ret; cbv beta
    | rewrite for_each_cons; cbv beta iota zeta
    | rewrite for_each_nil
    | rewrite list_index_head; cbv beta zeta
    | rewrite (bind_ok (lift (Ok _)) _ _ _ _ eq_refl); cbv beta zeta
    | progress unfold config_items
    | progress cbn [app drop] ].

Ltac report_print :=
  lazymatch goal with
  | Hev : evolves ?w0 ?w ?E ?D |- context [(?m ≫= ?k) ?w] =>
      let w1 := fresh "w" in
      let Hrun := fresh "Hrun" in
      let Hst := fresh "Hst" in
      let Hev' := fresh "Hev" in
      destruct (emit_exact m _ k w eq_refl) as (w1 & Hrun & Hst);
      rewrite Hrun; cbv beta;
      pose proof (evolves_trans _ _ _ _ _ _ _ Hev Hst) as Hev';
      clear Hev Hst Hrun; rename Hev' into Hev
  end.

Ltac report_prints := repeat (report_norm; report_print); report_norm.

Ltac report_last :=
  lazymatch goal with
  | Hev : evolves ?w0 ?w ?E ?D |- context [?m ?w = _] =>
      let w1 := fresh "w" in
      let Hrun := fresh "Hrun" in
      let Hst := fresh "Hst" in
      let Hev' := fresh "Hev" in
      destruct (emit_exact_last m _ w eq_refl) as (w1 & Hrun & Hst);
      rewrite Hrun;
      pose proof (evolves_trans _ _ _ _ _ _ _ Hev Hst) as Hev';
      clear Hev Hst Hrun; rename Hev' into Hev
  end.

Ltac report_bench Hframe Hwf r t0 t1 Hname Hfps Htime Hbench :=
  report_norm;
  lazymatch goal with
  | Hev : evolves ?w0 ?w ?E ?D
    |- context [(test_configuration ?frame ?name ≫= ?k) ?w] =>
      let w1 := fresh "w" in
      let Hrun := fresh "Hrun" in
      let Hst := fresh "Hst" in
      let Hev' := fresh "Hev" in
      destruct (bench_exact w0 w E D frame _ name _ k Hev Hframe eq_refl Hwf)
        as (w1 & r & t0 & t1 & Hrun & Hst & Hname & Hfps & Htime & Hbench);
      rewrite Hrun; cbv beta;
      rewrite (evolves_count _ _ _ _ Hev) in Htime, Hbench;
      let n := eval vm_compute in (count_detect E) in
      change (count_detect E) with n in Htime, Hbench;
      rewrite <- Nat.add_assoc in Htime;
      rewrite ?Nat.add_0_r in Hbench;
      pose proof (evolves_trans _ _ _ _ _ _ _ Hev Hst) as Hev';
      clear Hev Hst Hrun; rename Hev' into Hev
  end.

Ltac report_done r0 r1 r2 :=
  lazymatch goal with
  | Hev : evolves _ ?w ?E _, Hz : Qeq_bool _ _ = _ |- _ =>
      exists w, E, r0, r1, r2;
      rewrite Hz;
      split_and!;
      [ reflexivity
      | exact (ev_trace _ _ _ _ Hev)
      | assumption | assumption | assumption
      | assumption | assumption | assumption
      | assumption | assumption | assumption
      | reflexivity | reflexivity | reflexivity | reflexivity | reflexivity
      | assumption | assumption | assumption ]
  end.

Lemma main_with_frame_report w frame fimg :
  heap w !! frame = Some fimg →
  (∀ dictionary parameters image,
     well_formed (detectMarkers image dictionary parameters)) →
  ∃ w' evs r0 r1 r2,
    main_with_frame frame w
      = (w', if Qeq_bool (time_ms r0) 0
             then Raise ZeroDivisionError else Ok tt) ∧
    trace w' = trace w ++ evs ∧
    (config r0 = "original" ∧ config r1 = "optimized" ∧
     config r2 = "maximum") ∧
    (fps r0 = fps_of (time_ms r0) ∧ fps r1 = fps_of (time_ms r1) ∧
     fps r2 = fps_of (time_ms r2)) ∧
    ((time_ms r0
      == Qsum (duration_ms <$> seq (count_detect (trace w) + 3) 10) / 10)%Q ∧
     (time_ms r1
      == Qsum (duration_ms <$> seq (count_detect (trace w) + 16) 10) / 10)%Q ∧
     (time_ms r2
      == Qsum (duration_ms <$> seq (count_detect (trace w) + 29) 10) / 10)%Q) ∧
    printed_with row_template evs
      = [result_row r0; result_row r1; result_row r2] ∧
    printed_with "Improvements vs Original:" evs = [[]] ∧
    printed_with markers_template evs
      = (if Qeq_bool (time_ms r0) 0 then []
         else [markers_fields r0 r1; markers_fields r0 r2]) ∧
    printed_with overhead_template evs
      = (if Qeq_bool (time_ms r0) 0 then []
         else [overhead_fields r0 r1; overhead_fields r0 r2]) ∧
    printed_with "Recommendations:" evs
      = (if Qeq_bool (time_ms r0) 0 then [] else [[]]) ∧
    (benchmarked frame fimg "original" (count_detect (trace w)) r0 ∧
     benchmarked frame fimg "optimized" (count_detect (trace w) + 13) r1 ∧
     benchmarked frame fimg "maximum" (count_detect (trace w) + 26) r2).
Proof.
  intros Hframe Hwf.
  pose proof (evolves_refl w) as Hev.
  unfold main_with_frame, configs.
  report_prints.
  report_bench Hframe Hwf r0 ta0 tb0 Hn0 Hf0 Ht0 Hb0. report_prints.
  report_bench Hframe Hwf r1 ta1 tb1 Hn1 Hf1 Ht1 Hb1. report_prints.
  report_bench Hframe Hwf r2 ta2 tb2 Hn2 Hf2 Ht2 Hb2. report_prints.
  destruct (Qeq_bool (time_ms r0) 0) eqn:Hz; unfold truediv; rewrite Hz.
  - rewrite (bind_raise _ _ _ _ _ eq_refl).
    report_done r0 r1 r2.
  - report_prints. report_last.
    report_done r0 r1 r2.
Qed.

(** The same for [main], from either way of getting the frame. *)
Lemma main_report w :
  (∀ dictionary parameters image,
     well_formed (detectMarkers image dictionary parameters)) →
  cam_opened w = false ∨ is_Some (cam_frame w) →
  ∃ w' evs r0 r1 r2,
    main w
      = (w', if Qeq_bool (time_ms r0) 0
             then Raise ZeroDivisionError else Ok tt) ∧
    trace w' = trace w ++ evs ∧
    (config r0 = "original" ∧ config r1 = "optimized" ∧
     config r2 = "maximum") ∧
    (fps r0 = fps_of (time_ms r0) ∧ fps r1 = fps_of (time_ms r1) ∧
     fps r2 = fps_of (time_ms r2)) ∧
    ((time_ms r0
      == Qsum (duration_ms <$> seq (count_detect (trace w) + 3) 10) / 10)%Q ∧
     (time_ms r1
      == Qsum (duration_ms <$> seq (count_detect (trace w) + 16) 10) / 10)%Q ∧
     (time_ms r2
      == Qsum (duration_ms <$> seq (count_detect (trace w) + 29) 10) / 10)%Q) ∧
    printed_with row_template evs
      = [result_row r0; result_row r1; result_row r2] ∧
    printed_with "Improvements vs Original:" evs = [[]] ∧
    printed_with markers_template evs
      = (if Qeq_bool (time_ms r0) 0 then []
         else [markers_fields r0 r1; markers_fields r0 r2]) ∧
    printed_with overhead_template evs
      = (if Qeq_bool (time_ms r0) 0 then []
         else [overhead_fields r0 r1; overhead_fields r0 r2]) ∧
    printed_with "Recommendations:" evs
      = (if Qeq_bool (time_ms r0) 0 then [] else [[]]) ∧
    (∃ frame fimg,
       benchmarked frame fimg "original" (count_detect (trace w)) r0 ∧
       benchmarked frame fimg "optimized" (count_detect (trace w) + 13) r1 ∧
       benchmarked frame fimg "maximum" (count_detect (trace w) + 26) r2).
Proof.
  intros Hwf Hcam.
  assert (∃ w1 frame fimg pre,
            main w = main_with_frame frame w1 ∧
            heap w1 !! frame = Some fimg ∧
            trace w1 = trace w ++ pre ∧
            count_detect pre = 0 ∧
            printed_with row_template pre = [] ∧
            printed_with "Improvements vs Original:" pre = [] ∧
            printed_with markers_template pre = [] ∧
            printed_with overhead_template pre = [] ∧
            printed_with "Recommendations:" pre = [])
    as (w1 & frame & fimg & pre & Hmain & Hframe & Htr & Hk
        & Hp1 & Hp2 & Hp3 & Hp4 & Hp5).
  { destruct (cam_opened w) eqn:Hopened.
    - destruct Hcam as [|[img Himg]]; [done|].
      eexists _, _, _, _. split; [exact (main_frame_read w img Hopened Himg)|].
      split_and!; try reflexivity. apply lookup_fresh.
    - eexists _, _, _, _. split; [exact (main_not_opened w Hopened)|].
      split_and!; try reflexivity. apply lookup_fresh. }
  destruct (main_with_frame_report w1 frame fimg Hframe Hwf)
    as (w' & evs & r0 & r1 & r2 & Hrun & Htr' & Hn & Hf & Ht
        & Hq1 & Hq2 & Hq3 & Hq4 & Hq5 & Hb).
  rewrite Htr, count_detect_app, Hk, Nat.add_0_r in Ht, Hb.
  exists w', (pre ++ evs), r0, r1, r2.
  rewrite !printed_with_app, Hp1, Hp2, Hp3, Hp4, Hp5.
  rewrite Hmain, Htr', Htr, (assoc_L (++)).
  exact (conj Hrun (conj eq_refl (conj Hn (conj Hf (conj Ht
           (conj Hq1 (conj Hq2 (conj Hq3 (conj Hq4 (conj Hq5
              (ex_intro _ frame (ex_intro _ fimg Hb)))))))))))).
Qed.


(** X13. When the time reported in the first row of the table is not
    zero, [main] returns normally and prints two improvement entries, for
    the second and the third row: the marker line of each gives the row's
    count, a plus sign exactly when that count is larger than the first
    row's, and the difference of the two counts; each entry has one
    processing-time line. *)
Theorem main_improvement_entries w :
  (∀ dictionary parameters image,
     well_formed (detectMarkers image dictionary parameters)) →
  cam_opened w = false ∨ is_Some (cam_frame w) →
  ∃ w' outcome evs r0 r1 r2,
    main w = (w', outcome) ∧
    trace w' = trace w ++ evs ∧
    printed_with row_template evs
      = [result_row r0; result_row r1; result_row r2] ∧
    (¬ (time_ms r0 == 0)%Q →
     outcome = Ok tt ∧
     printed_with markers_template evs
       = [markers_fields r0 r1; markers_fields r0 r2] ∧
     length (printed_with overhead_template evs) = 2).
Proof.
  intros Hwf Hcam.
  destruct (main_report w Hwf Hcam)
    as (w' & evs & r0 & r1 & r2 & Hrun & Htr & _ & _ & _ & Hrows
        & _ & Hmarkers & Hover & _).
  eexists w', _, evs, r0, r1, r2.
  split; [exact Hrun|]. split; [exact Htr|]. split; [exact Hrows|].
  intros Hnz.
  destruct (Qeq_bool (time_ms r0) 0) eqn:Hz.
  - destruct Hnz. by apply Qeq_bool_eq.
  - rewrite Hmarkers, Hover. by split_and!.
Qed.

(** X14. When the ten timed calls of the first preset took no time in
    total, [main] ends with [ZeroDivisionError] after it has printed the
    three rows of the table and the heading of the improvements: no
    improvement entry and nothing of the recommendations is printed. *)
Theorem main_report_cut_short w :
  (∀ dictionary parameters image,
     well_formed (detectMarkers image dictionary parameters)) →
  cam_opened w = false ∨ is_Some (cam_frame w) →
  (Qsum (duration_ms <$> seq (count_detect (trace w) + 3) 10) == 0)%Q →
  ∃ w' evs,
    main w = (w', Raise ZeroDivisionError) ∧
    trace w' = trace w ++ evs ∧
    length (printed_with row_template evs) = 3 ∧
    printed_with "Improvements vs Original:" evs = [[]] ∧
    printed_with markers_template evs = [] ∧
    printed_with overhead_template evs = [] ∧
    printed_with "Recommendations:" evs = [].
Proof.
  intros Hwf Hcam Hzero.
  destruct (main_report w Hwf Hcam)
    as (w' & evs & r0 & r1 & r2 & Hrun & Htr & Hn & Hf & (Ht & _) & Hrows
        & Hhead & Hmarkers & Hover & Hrec & _).
  assert (Hz : Qeq_bool (time_ms r0) 0 = true).
  { apply Qeq_eq_bool. rewrite Ht, Hzero. reflexivity. }
  rewrite Hz in Hrun, Hmarkers, Hover, Hrec. exists w', evs.
  rewrite Hrows.
  exact (conj Hrun (conj Htr (conj eq_refl (conj Hhead
           (conj Hmarkers (conj Hover Hrec)))))).
Qed.

End Benchmark.

(** ** The properties on the sample library *)

Lemma sample_well_formed dictionary parameters image :
  well_formed (Sample.detectMarkers image dictionary parameters).
Proof.
  unfold Sample.detectMarkers. destruct (data image) as [|x rest]; [done|].
  destruct (x =? 255)%Z; [done|]. by destruct (x =? 0)%Z.
Qed.

Lemma preprocess_image_returns_fresh_image_witness :
  ∃ w' processed,
    preprocess_image Sample.CLAHE_apply Sample.bilateralFilter 0 Sample.maximum
      Sample.world = (w', Ok processed) ∧
    processed ≠ 0 ∧
    heap Sample.world !! processed = None ∧
    heap w' !! 0 = Some Sample.frame ∧
    (∀ l old, heap Sample.world !! l = Some old → heap w' !! l = Some old) ∧
    heap w' !! processed
    = Some (let enhanced :=
              if use_clahe Sample.maximum
              then Sample.CLAHE_apply (cv2_createCLAHE 2.0%Q (8, 8)%Z) Sample.frame
              else Sample.frame in
            if use_bilateral Sample.maximum
            then Sample.bilateralFilter enhanced 5%Z 50%Q 50%Q
            else enhanced).
Proof.
  apply (preprocess_image_returns_fresh_image Sample.CLAHE_apply
           Sample.bilateralFilter Sample.world 0 Sample.frame Sample.maximum).
  reflexivity.
Defined.

Lemma detect_markers_single_pass_witness :
  ∃ w1 processed image,
    preprocess_image Sample.CLAHE_apply Sample.bilateralFilter 0 Sample.original
      Sample.world = (w1, Ok processed) ∧
    heap w1 !! processed = Some image ∧
    detect_markers Sample.CLAHE_apply Sample.bilateralFilter Sample.threshold
      Sample.detectMarkers 0 12%Z Sample.DetectorParameters_create
      Sample.original Sample.world
    = (w1, Ok (fst (Sample.detectMarkers image 12%Z
                      Sample.DetectorParameters_create))).
Proof.
  apply (detect_markers_single_pass Sample.CLAHE_apply Sample.bilateralFilter
           Sample.threshold Sample.detectMarkers Sample.world 0 Sample.frame);
    reflexivity.
Defined.

Lemma detect_markers_adaptive_pass_wins_witness :
  ∃ w' corners ids,
    detect_markers Sample.CLAHE_apply Sample.bilateralFilter Sample.threshold
      Sample.detectMarkers 0 12%Z Sample.DetectorParameters_create
      Sample.maximum Sample.world = (w', Ok (corners, Some ids)) ∧
    7%Z ∈ ids ∧
    corners_of 7 ids corners
    = corners_of 7 [7; 3]%Z [Sample.c1; Sample.c2] ∧
    (∀ k c, ids !! k = Some 7%Z → corners !! k = Some c →
            corners_of 7 [7; 3]%Z [Sample.c1; Sample.c2] = Some c).
Proof.
  apply (detect_markers_adaptive_pass_wins Sample.CLAHE_apply
           Sample.bilateralFilter Sample.threshold Sample.detectMarkers
           Sample.world 0 Sample.frame 12%Z Sample.DetectorParameters_create
           Sample.maximum [Sample.c1; Sample.c2] [7; 3]%Z [] 7%Z).
  - reflexivity.
  - reflexivity.
  - intros image. apply sample_well_formed.
  - reflexivity.
  - constructor.
Defined.

Lemma detect_markers_ids_distinct_witness :
  ∃ w' corners ids,
    detect_markers Sample.CLAHE_apply Sample.bilateralFilter Sample.threshold
      Sample.detectMarkers 0 12%Z Sample.DetectorParameters_create
      Sample.maximum Sample.world = (w', Ok (corners, ids)) ∧
    NoDup (ids_list ids) ∧
    length corners = length (ids_list ids).
Proof.
  apply (detect_markers_ids_distinct Sample.CLAHE_apply Sample.bilateralFilter
           Sample.threshold Sample.detectMarkers Sample.world 0 Sample.frame).
  - reflexivity.
  - reflexivity.
  - intros image. apply sample_well_formed.
Defined.

(** What the merge returns on the sample: marker 7 keeps the corners of
    the adaptive pass, marker 9 is added from the Otsu pass. *)
Example detect_markers_sample :
  snd (detect_markers Sample.CLAHE_apply Sample.bilateralFilter Sample.threshold
         Sample.detectMarkers 0 12%Z Sample.DetectorParameters_create
         Sample.maximum Sample.world)
  = Ok ([Sample.c1; Sample.c2; Sample.c4], Some [7; 3; 9]%Z).
Proof. reflexivity. Qed.

Lemma setup_detector_fields_witness :
  ∃ parameters cfg,
    dict_get configs "maximum" = Ok cfg ∧
    setup_detector Sample.getPredefinedDictionary
      Sample.DetectorParameters_create "maximum"
    = Ok (Sample.getPredefinedDictionary DICT_7X7_50, parameters, cfg) ∧
    adaptiveThreshConstant parameters
    = inject_Z (adaptive_thresh_constant cfg) ∧
    cornerRefinementMaxIterations parameters
    = corner_refinement_max_iterations cfg ∧
    cornerRefinementMethod parameters = CORNER_REFINE_SUBPIX ∧
    minMarkerPerimeterRate parameters = 0.01%Q ∧
    maxMarkerPerimeterRate parameters = 4.0%Q ∧
    polygonalApproxAccuracyRate parameters = 0.03%Q ∧
    minCornerDistanceRate parameters = 0.03%Q ∧
    cornerRefinementWinSize parameters = 5%Z ∧
    cornerRefinementMinAccuracy parameters = 0.01%Q ∧
    errorCorrectionRate parameters = 0.6%Q ∧
    detectInvertedMarker parameters = true.
Proof.
  apply (setup_detector_fields Sample.getPredefinedDictionary
           Sample.DetectorParameters_create "maximum").
  do 3 constructor.
Defined.

(** The hardware's doubles agree with [binary64]: on single quotients
    (one of them a tie, [2 ^ 53 + 1]), and on the arithmetic of the report,
    where the readings 1000.0 and 1000.05 give 4.9999999999954525 ms and
    200.0000000001819 frames per second. *)
Example binary64_hardware :
  let f n d := PrimFloat.div (float_of_Z n) (float_of_Z d) in
  let elapsed :=
    PrimFloat.mul
      (PrimFloat.div (PrimFloat.sub (f 100005 100) (f 1000 1)) (f 10 1))%Z
      (f 1000 1)%Z in
  Qred <$> Q_of_float (f 1 3)%Z = Some (Qred (binary64 (1 # 3))) ∧
  Qred <$> Q_of_float (f 1 10)%Z = Some (Qred (binary64 (1 # 10))) ∧
  Qred <$> Q_of_float (f 9007199254740993 1)%Z
    = Some (Qred (binary64 (9007199254740993 # 1))) ∧
  Qred <$> Q_of_float elapsed = Some (5497558138875 # 1099511627776)%Q ∧
  Qred (binary64 (binary64 (binary64
          (binary64 (100005 # 100) - binary64 1000) / 10) * 1000))%Q
    = (5497558138875 # 1099511627776)%Q ∧
  Qred <$> Q_of_float (PrimFloat.div (f 1000 1)%Z elapsed)
    = Some (Qred (binary64 (1000 / (5497558138875 # 1099511627776))%Q)).
Proof. by vm_compute. Qed.

#[local] Abbreviation sample_test_configuration_float rnd durations :=
  (test_configuration_float Sample.getPredefinedDictionary
      Sample.DetectorParameters_create Sample.cvtColor Sample.CLAHE_apply
      Sample.bilateralFilter Sample.threshold Sample.detectMarkers durations rnd).


(** Calls of 7.8125 ms from the time 100 s: every value of the
    computation is representable, and the report is 7.8125 ms and 128
    frames per second. *)
Example test_configuration_float_dyadic_sample :
  ∃ w' r,
    sample_test_configuration_float binary64 Sample.dyadic 0 "optimized"
      Sample.world = (w', Ok r) ∧
    (time_ms r == 125 # 16)%Q ∧ (fps r == 128)%Q.
Proof.
  eexists _, _. split; [vm_compute; reflexivity|]. by vm_compute.
Qed.


(** On the sample in exact arithmetic, with every call taking 5 ms, the
    report is 5 ms and 200 frames per second. *)
Example test_configuration_sample :
  ∃ w' r,
    test_configuration Sample.getPredefinedDictionary
      Sample.DetectorParameters_create Sample.cvtColor Sample.CLAHE_apply
      Sample.bilateralFilter Sample.threshold Sample.detectMarkers
      Sample.steady 0 "optimized" Sample.world = (w', Ok r) ∧
    num_markers r = 3%Z ∧ (time_ms r == 5)%Q ∧ (fps r == 200)%Q.
Proof.
  eexists _, _. split; [vm_compute; reflexivity|]. by vm_compute.
Qed.

Lemma test_configuration_null_ids_and_zero_time_witness :
  ∃ w' r gray dictionary parameters cfg w_prev w_last corners ids,
    test_configuration Sample.getPredefinedDictionary
      Sample.DetectorParameters_create Sample.cvtColor Sample.CLAHE_apply
      Sample.bilateralFilter Sample.threshold Sample.detectMarkers
      Sample.instant 0 "original" Sample.dark_world = (w', Ok r) ∧
    call_detect_markers Sample.CLAHE_apply Sample.bilateralFilter
      Sample.threshold Sample.detectMarkers Sample.instant gray dictionary
      parameters cfg w_prev = (w_last, Ok (corners, ids)) ∧
    w' = set_trace (trace w_last ++ [EvTime (clock w_last)]) w_last ∧
    num_markers r = count_ids ids ∧
    (ids = None → num_markers r = 0%Z) ∧
    ((time_ms r == 0)%Q → fps r = 0%Q) ∧
    ((time_ms r <= 0)%Q → fps r = 0%Q).
Proof.
  apply (test_configuration_null_ids_and_zero_time
           Sample.getPredefinedDictionary Sample.DetectorParameters_create
           Sample.cvtColor Sample.CLAHE_apply Sample.bilateralFilter
           Sample.threshold Sample.detectMarkers Sample.instant
           Sample.dark_world 0 Sample.black "original").
  - reflexivity.
  - constructor.
  - apply sample_well_formed.
Defined.

(** On a black frame, in no measurable time: no marker, a mean of 0 ms
    and 0 for the frame rate. *)
Example test_configuration_dark_sample :
  ∃ w' r,
    test_configuration Sample.getPredefinedDictionary
      Sample.DetectorParameters_create Sample.cvtColor Sample.CLAHE_apply
      Sample.bilateralFilter Sample.threshold Sample.detectMarkers
      Sample.instant 0 "original" Sample.dark_world = (w', Ok r) ∧
    num_markers r = 0%Z ∧ (time_ms r == 0)%Q ∧ fps r = 0%Q.
Proof.
  eexists _, _. split; [vm_compute; reflexivity|]. by vm_compute.
Qed.

#[local] Abbreviation sample_main durations :=
  (main Sample.getPredefinedDictionary Sample.DetectorParameters_create
     Sample.cvtColor Sample.CLAHE_apply Sample.bilateralFilter Sample.threshold
     Sample.detectMarkers Sample.randint durations).

Lemma main_camera_conditions_witness :
  (cam_opened Sample.no_camera = false →
   ∃ w' r evs,
     sample_main Sample.steady Sample.no_camera = (w', r) ∧
     (r = Ok tt ∨ r = Raise ZeroDivisionError) ∧
     trace w'
     = trace Sample.no_camera ++
       (header ++
        [EvPrint (mk_printed "Error: Could not open camera" [] None);
         EvPrint (mk_printed "Using test image instead..." [] None)]) ++
       evs ∧
     List.filter is_detect evs
     = replicate 39
         (EvDetect (Sample.cvtColor (Sample.randint 0 255 [480; 640; 3]%Z)
                      COLOR_BGR2GRAY))) ∧
  (cam_opened Sample.no_camera = true → cam_frame Sample.no_camera = None →
   sample_main Sample.steady Sample.no_camera
   = (set_trace
        (trace Sample.no_camera ++ header ++
         [EvPrint (mk_printed "Error: Could not read frame" [] None)])
        Sample.no_camera,
      Ok tt)) ∧
  (∀ img, cam_opened Sample.no_camera = true →
          cam_frame Sample.no_camera = Some img →
   ∃ w' r evs,
     sample_main Sample.steady Sample.no_camera = (w', r) ∧
     (r = Ok tt ∨ r = Raise ZeroDivisionError) ∧
     trace w'
     = trace Sample.no_camera ++
       (header ++
        [EvPrint (mk_printed "Using camera frame: {frame.shape}"
                    [VShape (shape img)] None)]) ++
       evs ∧
     List.filter is_detect evs
     = replicate 39 (EvDetect (Sample.cvtColor img COLOR_BGR2GRAY))).
Proof.
  apply (main_camera_conditions Sample.getPredefinedDictionary
           Sample.DetectorParameters_create Sample.cvtColor Sample.CLAHE_apply
           Sample.bilateralFilter Sample.threshold Sample.detectMarkers
           Sample.randint Sample.steady Sample.no_camera).
  apply sample_well_formed.
Defined.

(** A camera that opens and delivers nothing: four lines are printed and
    the run is over. *)
Example main_read_failure_sample :
  sample_main Sample.steady
    (mk_World [] 100%Q [] true None false)
  = (mk_World [] 100%Q
       [EvPrint (mk_printed "ArUco Detection Optimization Comparison" [] None);
        EvPrint (mk_printed
                   "============================================================"
                   [] None);
        EvPrint (mk_printed "" [] None);
        EvPrint (mk_printed "Error: Could not read frame" [] None)]
       true None false,
     Ok tt).
Proof. reflexivity. Qed.


(** The run that takes no measurable time ends in the exception; the run
    with 5 ms per call completes. *)
Example main_instant_sample :
  snd (sample_main Sample.instant Sample.no_camera) = Raise ZeroDivisionError.
Proof. by vm_compute. Qed.

Example main_steady_sample :
  snd (sample_main Sample.steady Sample.no_camera) = Ok tt.
Proof. by vm_compute. Qed.

Lemma unknown_preset_raises_KeyError_witness :
  setup_detector Sample.getPredefinedDictionary
    Sample.DetectorParameters_create "fast" = Raise (KeyError "fast") ∧
  snd (test_configuration Sample.getPredefinedDictionary
         Sample.DetectorParameters_create Sample.cvtColor Sample.CLAHE_apply
         Sample.bilateralFilter Sample.threshold Sample.detectMarkers
         Sample.steady 0 "fast" Sample.world)
  = Raise (KeyError "fast").
Proof.
  apply (unknown_preset_raises_KeyError Sample.getPredefinedDictionary
           Sample.DetectorParameters_create Sample.cvtColor Sample.CLAHE_apply
           Sample.bilateralFilter Sample.threshold Sample.detectMarkers
           Sample.steady Sample.world 0 Sample.frame "fast").
  - intros H. repeat (apply elem_of_cons in H as [H|H]; [discriminate H|]).
    by apply elem_of_nil in H.
  - reflexivity.
Defined.

Lemma main_read_failure_leaves_camera_open_witness :
  snd (sample_main Sample.steady (mk_World [] 100%Q [] true None false))
  = Ok tt ∧
  cam_released
    (fst (sample_main Sample.steady (mk_World [] 100%Q [] true None false)))
  = false.
Proof.
  apply (main_read_failure_leaves_camera_open Sample.getPredefinedDictionary
           Sample.DetectorParameters_create Sample.cvtColor Sample.CLAHE_apply
           Sample.bilateralFilter Sample.threshold Sample.detectMarkers
           Sample.randint Sample.steady (mk_World [] 100%Q [] true None false));
    reflexivity.
Defined.

#[local] Abbreviation sample_detect_markers :=
  (detect_markers Sample.CLAHE_apply Sample.bilateralFilter Sample.threshold
     Sample.detectMarkers).

Lemma detect_markers_ids_union_witness :
  ∃ w' corners ids,
    sample_detect_markers 0 12%Z Sample.DetectorParameters_create
      Sample.maximum Sample.world = (w', Ok (corners, ids)) ∧
    ∀ id, id ∈ ids_list ids
          ↔ id ∈ ids_list (Some [7; 3]%Z) ∨ id ∈ ids_list (Some [7; 9]%Z).
Proof.
  apply (detect_markers_ids_union Sample.CLAHE_apply Sample.bilateralFilter
           Sample.threshold Sample.detectMarkers Sample.world 0 Sample.frame
           12%Z Sample.DetectorParameters_create Sample.maximum
           [Sample.c1; Sample.c2] (Some [7; 3]%Z) []
           127%Q (mk_ndarray [2; 2; 1]%Z [255; 255; 255; 255]%Z)
           [Sample.c3; Sample.c4] (Some [7; 9]%Z) []).
  - reflexivity.
  - reflexivity.
  - intros image. apply sample_well_formed.
  - reflexivity.
  - reflexivity.
  - reflexivity.
Defined.

Lemma detect_markers_otsu_only_witness :
  ∃ w' corners ids c,
    sample_detect_markers 0 12%Z Sample.DetectorParameters_create
      Sample.maximum Sample.world = (w', Ok (corners, Some ids)) ∧
    9%Z ∈ ids ∧
    corners_of 9 ids corners = Some c ∧
    corners_of 9 (ids_list (Some [7; 9]%Z)) [Sample.c3; Sample.c4] = Some c.
Proof.
  apply (detect_markers_otsu_only Sample.CLAHE_apply Sample.bilateralFilter
           Sample.threshold Sample.detectMarkers Sample.world 0 Sample.frame
           12%Z Sample.DetectorParameters_create Sample.maximum
           [Sample.c1; Sample.c2] (Some [7; 3]%Z) []
           127%Q (mk_ndarray [2; 2; 1]%Z [255; 255; 255; 255]%Z)
           [Sample.c3; Sample.c4] (Some [7; 9]%Z) [] 9%Z).
  - reflexivity.
  - reflexivity.
  - intros image. apply sample_well_formed.
  - reflexivity.
  - reflexivity.
  - reflexivity.
  - intros H. repeat (apply elem_of_cons in H as [H|H]; [discriminate H|]).
    by apply elem_of_nil in H.
  - do 2 constructor.
Defined.

Lemma detect_markers_ids_order_witness :
  ∃ w' corners ids,
    sample_detect_markers 0 12%Z Sample.DetectorParameters_create
      Sample.maximum Sample.world = (w', Ok (corners, ids)) ∧
    ids_list ids
    = first_occurrences []
        (ids_list (Some [7; 3]%Z) ++ ids_list (Some [7; 9]%Z)).
Proof.
  apply (detect_markers_ids_order Sample.CLAHE_apply Sample.bilateralFilter
           Sample.threshold Sample.detectMarkers Sample.world 0 Sample.frame
           12%Z Sample.DetectorParameters_create Sample.maximum
           [Sample.c1; Sample.c2] (Some [7; 3]%Z) []
           127%Q (mk_ndarray [2; 2; 1]%Z [255; 255; 255; 255]%Z)
           [Sample.c3; Sample.c4] (Some [7; 9]%Z) []).
  - reflexivity.
  - reflexivity.
  - intros image. apply sample_well_formed.
  - reflexivity.
  - reflexivity.
  - reflexivity.
Defined.

(** A library that finds candidates and no marker: an empty identifier
    array from both passes becomes [None]. *)
Lemma detect_markers_nothing_found_witness :
  ∃ w',
    detect_markers Sample.CLAHE_apply Sample.bilateralFilter Sample.threshold
      (λ _ _ _, ([Sample.c1], Some [], [])) 0 12%Z
      Sample.DetectorParameters_create Sample.maximum Sample.world
    = (w', Ok ([], None)).
Proof.
  apply (detect_markers_nothing_found Sample.CLAHE_apply Sample.bilateralFilter
           Sample.threshold (λ _ _ _, ([Sample.c1], Some [], []))
           Sample.world 0 Sample.frame 12%Z Sample.DetectorParameters_create
           Sample.maximum [Sample.c1] (Some []) []
           127%Q (mk_ndarray [2; 2; 1]%Z [255; 255; 255; 255]%Z)
           [Sample.c1] (Some []) []);
    reflexivity.
Defined.

Lemma detect_markers_multi_outcome_witness :
  (∀ corners ids,
     snd (sample_detect_markers 0 12%Z Sample.DetectorParameters_create
            Sample.maximum Sample.world)
     = Ok (corners, ids) →
     NoDup (ids_list ids) ∧ length corners = length (ids_list ids)) ∧
  (∀ marker_id rest rej,
     Sample.detectMarkers
       (preprocessed Sample.CLAHE_apply Sample.bilateralFilter Sample.frame
          Sample.maximum) 12%Z Sample.DetectorParameters_create
     = ([], Some (marker_id :: rest), rej) →
     snd (sample_detect_markers 0 12%Z Sample.DetectorParameters_create
            Sample.maximum Sample.world)
     = Raise IndexError).
Proof.
  apply (detect_markers_multi_outcome Sample.CLAHE_apply Sample.bilateralFilter
           Sample.threshold Sample.detectMarkers Sample.world 0 Sample.frame);
    reflexivity.
Defined.

(** A library that reports marker 7 without corners: [corners[0]] fails. *)
Example detect_markers_index_error_sample :
  snd (detect_markers Sample.CLAHE_apply Sample.bilateralFilter
         Sample.threshold (λ _ _ _, ([], Some [7]%Z, [])) 0 12%Z
         Sample.DetectorParameters_create Sample.maximum Sample.world)
  = Raise IndexError.
Proof. reflexivity. Qed.

Lemma test_configuration_propagates_witness :
  ∃ w',
    test_configuration Sample.getPredefinedDictionary
      Sample.DetectorParameters_create Sample.cvtColor Sample.CLAHE_apply
      Sample.bilateralFilter Sample.threshold
      (λ _ _ _, ([], Some [7]%Z, [])) Sample.steady 0 "optimized" Sample.world
    = (w', Raise IndexError) ∧
    trace w'
    = trace Sample.world ++
      [EvDetect (Sample.cvtColor Sample.frame COLOR_BGR2GRAY)] ∧
    clock w' = clock Sample.world.
Proof.
  apply (test_configuration_propagates Sample.getPredefinedDictionary
           Sample.DetectorParameters_create Sample.cvtColor Sample.CLAHE_apply
           Sample.bilateralFilter Sample.threshold
           (λ _ _ _, ([], Some [7]%Z, [])) Sample.steady Sample.world 0
           Sample.frame "optimized" (mk_Config true false true 5%Z 60%Z)
           12%Z
           (mk_DetectorParameters 5%Q 60%Z CORNER_REFINE_SUBPIX 0.01%Q 4.0%Q
              0.03%Q 0.03%Q 5%Z 0.01%Q 0.6%Q true)
           (mk_World [Sample.cvtColor Sample.frame COLOR_BGR2GRAY] 0%Q []
              false None false) 0 IndexError);
    reflexivity.
Defined.

Lemma test_configuration_fps_witness :
  ∃ w' r,
    sample_test_configuration_float binary64 Sample.steady 0 "maximum"
      Sample.world = (w', Ok r) ∧
    (0 <= fps r)%Q ∧
    ((time_ms r <= 0)%Q → fps r = 0%Q).
Proof.
  apply (test_configuration_fps Sample.getPredefinedDictionary
           Sample.DetectorParameters_create Sample.cvtColor Sample.CLAHE_apply
           Sample.bilateralFilter Sample.threshold Sample.detectMarkers
           Sample.steady binary64 Sample.world 0 Sample.frame "maximum").
  - apply binary64_nonneg.
  - reflexivity.
  - do 3 constructor.
  - apply sample_well_formed.
Defined.

(** A clock that runs backwards by 5 ms in every call: the reported time
    is negative and the frame rate 0. *)
Example test_configuration_fps_backwards_sample :
  ∃ w' r,
    sample_test_configuration_float binary64 (λ _, -5)%Q 0 "original"
      Sample.world = (w', Ok r) ∧
    (time_ms r < 0)%Q ∧ fps r = 0%Q.
Proof.
  eexists _, _. split; [vm_compute; reflexivity|]. by vm_compute.
Qed.

#[local] Abbreviation sample_benchmarked :=
  (benchmarked Sample.getPredefinedDictionary Sample.DetectorParameters_create
     Sample.cvtColor Sample.CLAHE_apply Sample.bilateralFilter Sample.threshold
     Sample.detectMarkers Sample.steady).


Lemma main_improvement_entries_witness :
  ∃ w' outcome evs r0 r1 r2,
    sample_main Sample.steady Sample.world = (w', outcome) ∧
    trace w' = trace Sample.world ++ evs ∧
    printed_with row_template evs
      = [result_row r0; result_row r1; result_row r2] ∧
    (¬ (time_ms r0 == 0)%Q →
     outcome = Ok tt ∧
     printed_with markers_template evs
       = [markers_fields r0 r1; markers_fields r0 r2] ∧
     length (printed_with overhead_template evs) = 2).
Proof.
  apply (main_improvement_entries Sample.getPredefinedDictionary
           Sample.DetectorParameters_create Sample.cvtColor Sample.CLAHE_apply
           Sample.bilateralFilter Sample.threshold Sample.detectMarkers
           Sample.randint Sample.steady Sample.world).
  - apply sample_well_formed.
  - right. eexists. reflexivity.
Defined.

(** On the sample frame the single pass reports two markers and the two
    multi-pass presets three, so both improvement entries carry the plus
    sign and a difference of one. *)
Example main_improvement_sample :
  (λ evs, (take 2 <$> printed_with row_template evs,
           printed_with markers_template evs))
    (trace (fst (sample_main Sample.steady Sample.world)))
  = ([[VStr "original"; VInt 2]; [VStr "optimized"; VInt 3];
      [VStr "maximum"; VInt 3]],
     [[VInt 3; VStr "+"; VInt 1]; [VInt 3; VStr "+"; VInt 1]]).
Proof. by vm_compute. Qed.

Lemma main_report_cut_short_witness :
  ∃ w' evs,
    sample_main Sample.instant Sample.no_camera
      = (w', Raise ZeroDivisionError) ∧
    trace w' = trace Sample.no_camera ++ evs ∧
    length (printed_with row_template evs) = 3 ∧
    printed_with "Improvements vs Original:" evs = [[]] ∧
    printed_with markers_template evs = [] ∧
    printed_with overhead_template evs = [] ∧
    printed_with "Recommendations:" evs = [].
Proof.
  apply (main_report_cut_short Sample.getPredefinedDictionary
           Sample.DetectorParameters_create Sample.cvtColor Sample.CLAHE_apply
           Sample.bilateralFilter Sample.threshold Sample.detectMarkers
           Sample.randint Sample.instant Sample.no_camera).
  - apply sample_well_formed.
  - left. reflexivity.
  - reflexivity.
Defined.

(** ** The launch description: properties *)

Lemma launch_started share_directory (args : gmap string string) :
  launch share_directory args generate_launch_description
  = (dir ← share_directory "aruco_py";
     Some [ mk_Process "v4l2_camera" "v4l2_camera_node" "camera"
              [path_join [dir; "config";
                          default "camera_c920.yaml" (args !! "camera_config")]]
              "screen";
            mk_Process "aruco_py" "aruco_node" "aruco_node" [] "screen" ]).
Proof.
  unfold generate_launch_description. cbn [launch].
  destruct (args !! "camera_config") as [cfg|] eqn:Hcfg.
  - destruct (args !! "device") as [dev|] eqn:Hdev;
      cbn [perform_list perform node_parameters];
      rewrite ?lookup_insert_ne by done; rewrite Hcfg;
      by destruct (share_directory "aruco_py").
  - rewrite lookup_insert_ne by done.
    destruct (args !! "device") as [dev|] eqn:Hdev;
      cbn [perform_list perform node_parameters];
      rewrite ?(lookup_insert_ne _ "device") by done;
      rewrite lookup_insert_eq;
      by destruct (share_directory "aruco_py").
Qed.

(** C10. The [device] launch argument is declared but read by no node:
    two invocations that agree on every argument but [device] start the
    same processes; the camera node's only parameter is the camera-config
    path resolved in the package's share directory, and the detector node
    has no parameter. *)
Theorem launch_ignores_device share_directory (args1 args2 : gmap string string) :
  (∀ name, name ≠ "device" → args1 !! name = args2 !! name) →
  launch share_directory args1 generate_launch_description
  = launch share_directory args2 generate_launch_description ∧
  launch share_directory args1 generate_launch_description
  = (dir ← share_directory "aruco_py";
     Some [ mk_Process "v4l2_camera" "v4l2_camera_node" "camera"
              [path_join [dir; "config";
                          default "camera_c920.yaml" (args1 !! "camera_config")]]
              "screen";
            mk_Process "aruco_py" "aruco_node" "aruco_node" [] "screen" ]) ∧
  Forall (λ a, "device" ∉ node_references a) generate_launch_description.
Proof.
  intros Hagree. split_and!.
  - rewrite !launch_started. by rewrite (Hagree "camera_config").
  - apply launch_started.
  - unfold generate_launch_description.
    repeat constructor; simpl; set_solver.
Qed.

Lemma launch_ignores_device_witness :
  launch Sample.share_directory {[ "device" := "/dev/video2" ]}
    generate_launch_description
  = launch Sample.share_directory ∅ generate_launch_description ∧
  launch Sample.share_directory {[ "device" := "/dev/video2" ]}
    generate_launch_description
  = (dir ← Sample.share_directory "aruco_py";
     Some [ mk_Process "v4l2_camera" "v4l2_camera_node" "camera"
              [path_join
                 [dir; "config";
                  default "camera_c920.yaml"
                    (({[ "device" := "/dev/video2" ]} : gmap string string)
                       !! "camera_config")]]
              "screen";
            mk_Process "aruco_py" "aruco_node" "aruco_node" [] "screen" ]) ∧
  Forall (λ a, "device" ∉ node_references a) generate_launch_description.
Proof.
  apply (launch_ignores_device Sample.share_directory
           {[ "device" := "/dev/video2" ]} ∅).
  intros name Hname. by rewrite lookup_singleton_ne, lookup_empty.
Defined.

(** Launched with another device, the two nodes start as always. *)
Example launch_sample :
  launch Sample.share_directory {[ "device" := "/dev/video2" ]}
    generate_launch_description
  = Some [ mk_Process "v4l2_camera" "v4l2_camera_node" "camera"
             ["/opt/ws/share/aruco_py/config/camera_c920.yaml"] "screen";
           mk_Process "aruco_py" "aruco_node" "aruco_node" [] "screen" ].
Proof. by vm_compute. Qed.
